(** * Open in Editor: a shallow embedding of [src/main.ts]

    The plugin reads a list of editor configurations from its settings,
    contributes context-menu entries for the enabled ones and, on click,
    builds one platform-specific shell command and runs it.

    Strings are [string], the [builtInEditors] record (a JS object used as a
    map from editor id to flags) is a [gmap string BuiltInSetting], arrays are
    lists, and the effects of [openInEditor] (process execution, notices,
    console output, exceptions) are threaded through a small trace-and-error
    monad. *)

From stdpp Require Import base strings list gmap fin_maps pretty.
From Stdlib Require Import ZArith Lia Ascii.

#[local] Set Warnings "-register-all".

Local Open Scope string_scope.

(** ** Types *)

(** [interface EditorConfig]. *)
Record EditorConfig := mkEditorConfig {
  id : string;
  name : string;
  appName : string;   (* macOS app name *)
  command : string;   (* CLI command for Windows/Linux *)
  enabled : bool;
  grouped : bool;
  isBuiltIn : bool;
}.

(** [interface CustomEditorConfig]. *)
Record CustomEditorConfig := mkCustomEditorConfig {
  c_id : string;
  c_name : string;
  c_appName : string;
  c_command : string;
  c_enabled : bool;
  c_grouped : bool;
}.

(** The value type of [PluginSettings.builtInEditors]. *)
Record BuiltInSetting := mkBuiltInSetting {
  s_enabled : bool;
  s_grouped : bool;
}.

(** [Omit<EditorConfig, "enabled" | "grouped">], the shape of the entries of
    [BUILT_IN_EDITORS]. *)
Record EditorTemplate := mkEditorTemplate {
  t_id : string;
  t_name : string;
  t_appName : string;
  t_command : string;
  t_isBuiltIn : bool;
}.

(** [interface PluginSettings]. *)
Record PluginSettings := mkPluginSettings {
  builtInEditors : gmap string BuiltInSetting;
  customEditors : list CustomEditorConfig;
}.

#[global] Instance EditorConfig_eq_dec : EqDecision EditorConfig.
Proof. solve_decision. Defined.
#[global] Instance CustomEditorConfig_eq_dec : EqDecision CustomEditorConfig.
Proof. solve_decision. Defined.
#[global] Instance BuiltInSetting_eq_dec : EqDecision BuiltInSetting.
Proof. solve_decision. Defined.
#[global] Instance EditorTemplate_eq_dec : EqDecision EditorTemplate.
Proof. solve_decision. Defined.

(** ** Built-in editors *)

Definition BUILT_IN_EDITORS : list EditorTemplate :=
  [ mkEditorTemplate "vscode" "VS Code" "Visual Studio Code" "code" true;
    mkEditorTemplate "cursor" "Cursor" "Cursor" "cursor" true;
    mkEditorTemplate "zed" "Zed" "Zed" "zed" true;
    mkEditorTemplate "windsurf" "Windsurf" "Windsurf" "windsurf" true;
    mkEditorTemplate "antygravity" "Antygravity" "Antygravity" "antygravity" true ].

(** [Object.fromEntries]: later entries overwrite earlier ones. *)
Definition fromEntries {V} (entries : list (string * V)) : gmap string V :=
  foldl (λ m kv, <[kv.1 := kv.2]> m) ∅ entries.

Definition DEFAULT_SETTINGS : PluginSettings :=
  {| builtInEditors :=
       fromEntries (map (λ e, (t_id e, mkBuiltInSetting false false)) BUILT_IN_EDITORS);
     customEditors := [] |}.

(** ** Settings store *)

(** What [loadData()] resolves to when something was stored: a JSON object
    whose own keys may or may not include each field of [PluginSettings]. *)
Record PersistedData := mkPersistedData {
  p_builtInEditors : option (gmap string BuiltInSetting);
  p_customEditors : option (list CustomEditorConfig);
}.

(** [Object.assign({}, base, data)]: a shallow merge, own keys of [data]
    replace those of [base]; a [null] source contributes nothing. *)
Definition assignSettings (base : PluginSettings) (data : option PersistedData)
  : PluginSettings :=
  match data with
  | None => base
  | Some d =>
      {| builtInEditors := default (builtInEditors base) (p_builtInEditors d);
         customEditors := default (customEditors base) (p_customEditors d) |}
  end.

(** One iteration of the back-fill loop of [loadSettings]:
    [if (!settings.builtInEditors[editor.id]) settings.builtInEditors[editor.id] = {...}].
    A stored entry is an object, hence truthy; an absent one is [undefined]. *)
Definition backfill (s : PluginSettings) (editor : EditorTemplate) : PluginSettings :=
  match builtInEditors s !! t_id editor with
  | Some _ => s
  | None =>
      {| builtInEditors :=
           <[t_id editor := mkBuiltInSetting false false]> (builtInEditors s);
         customEditors := customEditors s |}
  end.

(** [loadSettings], as a function of what [loadData()] resolved to
    ([None] is the [null] of a first activation). *)
Definition loadSettings (data : option PersistedData) : PluginSettings :=
  foldl backfill (assignSettings DEFAULT_SETTINGS data) BUILT_IN_EDITORS.

(** ** Editor registry *)

(** [{ ...editor, enabled: true, grouped: settings.grouped }]. *)
Definition ofBuiltIn (editor : EditorTemplate) (grp : bool) : EditorConfig :=
  {| id := t_id editor; name := t_name editor; appName := t_appName editor;
     command := t_command editor; enabled := true; grouped := grp;
     isBuiltIn := t_isBuiltIn editor |}.

(** The object literal pushed for a custom editor. *)
Definition ofCustom (custom : CustomEditorConfig) : EditorConfig :=
  {| id := c_id custom; name := c_name custom; appName := c_appName custom;
     command := c_command custom; enabled := true; grouped := c_grouped custom;
     isBuiltIn := false |}.

(** Body of the first loop of [getEnabledEditors]; [settings?.enabled] is
    [undefined] (falsy) when the entry is absent. *)
Definition pushBuiltIn (s : PluginSettings) (editors : list EditorConfig)
    (editor : EditorTemplate) : list EditorConfig :=
  match builtInEditors s !! t_id editor with
  | Some settings =>
      if s_enabled settings then editors ++ [ofBuiltIn editor (s_grouped settings)]
      else editors
  | None => editors
  end.

(** Body of the second loop of [getEnabledEditors]. *)
Definition pushCustom (editors : list EditorConfig) (custom : CustomEditorConfig)
  : list EditorConfig :=
  if c_enabled custom then editors ++ [ofCustom custom] else editors.

Definition getEnabledEditors (s : PluginSettings) : list EditorConfig :=
  let editors := [] in
  let editors := foldl (pushBuiltIn s) editors BUILT_IN_EDITORS in
  let editors := foldl pushCustom editors (customEditors s) in
  editors.

(** ** Host collaborators and effects *)

(** [TAbstractFile]: a file ([TFile]) or a folder, each with its vault path. *)
Inductive TAbstractFile :=
  | TFile (path : string)
  | TFolder (path : string).

#[global] Instance TAbstractFile_eq_dec : EqDecision TAbstractFile.
Proof. solve_decision. Defined.

Definition path (file : TAbstractFile) : string :=
  match file with TFile p => p | TFolder p => p end.

(** How the child process started by [execAsync] ended. The promise resolves
    only when the process exits with code 0. *)
Inductive ExecOutcome :=
  | Exited (code : Z)
  | CommandNotFound
  | SpawnError.

Definition exec_succeeds (o : ExecOutcome) : bool :=
  match o with
  | Exited code => (code =? 0)%Z
  | _ => false
  end.

(** Values that can be thrown inside [openInEditor]. *)
Inductive Exn :=
  | ExecFailure (o : ExecOutcome)
  | HostError.

(** Observable effects. *)
Inductive Event :=
  | EvExec (cmd : string)
  | EvNotice (msg : string)
  | EvConsoleError (msg : string) (error : Exn).

#[global] Instance ExecOutcome_eq_dec : EqDecision ExecOutcome.
Proof. solve_decision. Defined.
#[global] Instance Exn_eq_dec : EqDecision Exn.
Proof. solve_decision. Defined.
#[global] Instance Event_eq_dec : EqDecision Event.
Proof. solve_decision. Defined.

(** A computation either returns or throws, and appends to the trace. *)
Inductive Completion (A : Type) :=
  | Returned (a : A)
  | Thrown (e : Exn).
Arguments Returned {A} a.
Arguments Thrown {A} e.

Definition M (A : Type) : Type := list Event → Completion A * list Event.

#[global] Instance M_ret : MRet M := λ A a tr, (Returned a, tr).
#[global] Instance M_bind : MBind M := λ A B f m tr,
  match m tr with
  | (Returned a, tr') => f a tr'
  | (Thrown e, tr') => (Thrown e, tr')
  end.

Definition throw {A} (e : Exn) : M A := λ tr, (Thrown e, tr).
Definition emit (ev : Event) : M unit := λ tr, (Returned (), (tr ++ [ev])%list).

(** [try { body } catch (error) { handler }]. *)
Definition try_catch {A} (body : M A) (handler : Exn → M A) : M A := λ tr,
  match body tr with
  | (Returned a, tr') => (Returned a, tr')
  | (Thrown e, tr') => handler e tr'
  end.

(** The environment of the plugin: [process.platform], the vault adapter
    ([getFullPath] may throw, e.g. where the adapter has no such method) and
    the fate of every command handed to [exec]. *)
Record Host := mkHost {
  platform : string;
  getFullPath : string → option string;
  basePath : string;
  runProcess : string → ExecOutcome;
}.

(** The double-quote character. *)
Definition dq : string := String "034"%char "".

Section Plugin.
Variable host : Host.

Definition adapter_getFullPath (p : string) : M string :=
  match getFullPath host p with
  | Some full => mret full
  | None => throw HostError
  end.

(** [await execAsync(command)]. *)
Definition execAsync (cmd : string) : M unit :=
  emit (EvExec cmd) ;;
  let o := runProcess host cmd in
  if exec_succeeds o then mret () else throw (ExecFailure o).

(** [new Notice(msg)] and [console.error(msg, error)]. *)
Definition Notice (msg : string) : M unit := emit (EvNotice msg).
Definition console_error (msg : string) (error : Exn) : M unit :=
  emit (EvConsoleError msg error).

(** The path-resolution prefix of [openInEditor]. *)
Definition resolvePath (file : option TAbstractFile) : M string :=
  match file with
  | Some (TFile p) => adapter_getFullPath p
  | Some (TFolder p) => adapter_getFullPath p   (* it's a folder *)
  | None => mret (basePath host)                (* no file, open vault root *)
  end.

(** The [if (process.platform === ...)] chain of [openInEditor]. *)
Definition buildCommand (editor : EditorConfig) (filePath : string) : string :=
  if String.eqb (platform host) "darwin" then
    "open -a " +:+ dq +:+ appName editor +:+ dq +:+ " " +:+ dq +:+ filePath +:+ dq
  else if String.eqb (platform host) "win32" then
    dq +:+ command editor +:+ dq +:+ " " +:+ dq +:+ filePath +:+ dq
  else
    command editor +:+ " " +:+ dq +:+ filePath +:+ dq.

Definition openInEditor (editor : EditorConfig) (file : option TAbstractFile)
  : M unit :=
  try_catch
    (filePath ← resolvePath file;
     let command := buildCommand editor filePath in
     execAsync command ;;
     Notice ("Opening in " +:+ name editor))
    (λ error,
     console_error ("Error opening in " +:+ name editor +:+ ":") error ;;
     Notice ("Failed to open in " +:+ name editor +:+ ". Make sure "
             +:+ name editor +:+ " is installed.")).
End Plugin.

(** ** Menu contributor *)

(** A click handler is the closure [() => this.openInEditor(editor, file)];
    it is represented by the two values it captured. *)
Inductive ClickHandler :=
  | OpenInEditorClick (editor : EditorConfig) (file : option TAbstractFile).

(** A menu item after its configuration callback has run. *)
Inductive MenuItem := mkMenuItem {
  title : string;
  icon : string;
  onClick : option ClickHandler;
  submenu : option (list MenuItem);
}.

Definition Menu := list MenuItem.

Definition newItem : MenuItem := mkMenuItem "" "" None None.
Definition setTitle (t : string) (item : MenuItem) : MenuItem :=
  mkMenuItem t (icon item) (onClick item) (submenu item).
Definition setIcon (i : string) (item : MenuItem) : MenuItem :=
  mkMenuItem (title item) i (onClick item) (submenu item).
Definition setOnClick (h : ClickHandler) (item : MenuItem) : MenuItem :=
  mkMenuItem (title item) (icon item) (Some h) (submenu item).
Definition setSubmenu (sub : Menu) (item : MenuItem) : MenuItem :=
  mkMenuItem (title item) (icon item) (onClick item) (Some sub).

(** [menu.addItem(cb)] appends a fresh item configured by [cb]. *)
Definition addItem (menu : Menu) (cb : MenuItem → MenuItem) : Menu :=
  (menu ++ [cb newItem])%list.

Definition addEditorMenuItems (s : PluginSettings) (menu : Menu)
    (file : option TAbstractFile) : Menu :=
  let editors := getEnabledEditors s in
  if (length editors =? 0)%nat then menu else
  let groupedEditors := List.filter (λ e, grouped e) editors in
  let ungroupedEditors := List.filter (λ e, negb (grouped e)) editors in
  (* Ungrouped editors - directly in menu *)
  let menu :=
    foldl (λ menu editor,
             addItem menu (λ item,
               setOnClick (OpenInEditorClick editor file)
                 (setIcon "code" (setTitle ("Open in " +:+ name editor) item))))
          menu ungroupedEditors in
  (* Grouped editors - in submenu *)
  if (0 <? length groupedEditors)%nat then
    addItem menu (λ item,
      let item := setIcon "code" (setTitle "Open in External Editor" item) in
      let sub :=
        foldl (λ sub editor,
                 addItem sub (λ subItem,
                   setOnClick (OpenInEditorClick editor file)
                     (setIcon "code" (setTitle (name editor) subItem))))
              [] groupedEditors in
      setSubmenu sub item)
  else menu.

(** Activating an entry runs its click handler. *)
Definition activate (host : Host) (item : MenuItem) : M unit :=
  match onClick item with
  | Some (OpenInEditorClick editor file) => openInEditor host editor file
  | None => mret ()
  end.

(** The workspace event handlers registered by [onload]. *)
Definition onFileMenu (s : PluginSettings) (menu : Menu)
    (file : option TAbstractFile) : Menu :=
  addEditorMenuItems s menu file.

Definition onFilesMenu (s : PluginSettings) (menu : Menu)
    (files : list TAbstractFile) : Menu :=
  if (0 <? length files)%nat then addEditorMenuItems s menu (files !! 0%nat)
  else menu.

(** ** Settings UI: adding and deleting custom editors *)

(** [`custom-${Date.now()}`]: [now] is the clock reading in milliseconds, an
    integer, printed in decimal. *)
Definition customId (now : Z) : string := "custom-" +:+ pretty now.

(** Click handler of the "Add Custom Editor" button. *)
Definition addCustomEditor (now : Z) (s : PluginSettings) : PluginSettings :=
  {| builtInEditors := builtInEditors s;
     customEditors :=
       customEditors s ++
       [ {| c_id := customId now; c_name := "New Editor"; c_appName := "";
            c_command := ""; c_enabled := false; c_grouped := false |} ] |}.

(** Click handler of a "Delete" button: [customEditors.splice(index, 1)]. *)
Definition deleteCustomEditor (index : nat) (s : PluginSettings) : PluginSettings :=
  {| builtInEditors := builtInEditors s;
     customEditors := delete index (customEditors s) |}.

Inductive UiOp :=
  | AddCustom (now : Z)
  | DeleteCustom (index : nat).

Definition uiStep (s : PluginSettings) (op : UiOp) : PluginSettings :=
  match op with
  | AddCustom now => addCustomEditor now s
  | DeleteCustom index => deleteCustomEditor index s
  end.

Definition uiRun (s : PluginSettings) (ops : list UiOp) : PluginSettings :=
  foldl uiStep s ops.

(** The ids handed out by a sequence of operations, oldest first. *)
Definition createdIds (ops : list UiOp) : list string :=
  omap (λ op, match op with AddCustom now => Some (customId now) | _ => None end) ops.

(** The clock readings at the "add" clicks of a sequence of operations. *)
Definition addTimes (ops : list UiOp) : list Z :=
  omap (λ op, match op with AddCustom now => Some now | _ => None end) ops.

(** ** Editor-tab menu and command palette *)

(** The [editor-menu] handler of [onload]: [view.file] may be [null]. *)
Definition onEditorMenu (s : PluginSettings) (menu : Menu)
    (viewFile : option TAbstractFile) : Menu :=
  match viewFile with
  | Some file => addEditorMenuItems s menu (Some file)
  | None => menu
  end.

(** A command handed to [addCommand]; its [checkCallback] closure is
    represented by the editor it captured. *)
Record Command := mkCommand {
  cmd_id : string;
  cmd_name : string;
  cmd_editor : EditorConfig;
}.

Definition registerEditorCommands (s : PluginSettings) : list Command :=
  foldl (λ cmds editor,
           (cmds ++ [ {| cmd_id := "open-in-" +:+ id editor;
                         cmd_name := "Open current file in " +:+ name editor;
                         cmd_editor := editor |} ])%list)
        [] (getEnabledEditors s).

(** The [checkCallback] of a command; [activeFile] is what
    [workspace.getActiveFile()] returns (the path of a [TFile], or [null]). *)
Definition checkCallback (host : Host) (editor : EditorConfig)
    (activeFile : option string) (checking : bool) : M bool :=
  match activeFile with
  | Some p =>
      (if negb checking then openInEditor host editor (Some (TFile p)) else mret ()) ;;
      mret true
  | None => mret false
  end.

(** ** Settings tab *)

(** What [saveData(this.settings)] stores: the whole settings object. *)
Definition saveData (s : PluginSettings) : PersistedData :=
  {| p_builtInEditors := Some (builtInEditors s);
     p_customEditors := Some (customEditors s) |}.

(** [settings.builtInEditors[editor.id].enabled = value]; assigning to a
    property of [undefined] throws, which is [None] here. *)
Definition setBuiltInEnabled (k : string) (value : bool) (s : PluginSettings)
  : option PluginSettings :=
  match builtInEditors s !! k with
  | Some entry =>
      Some {| builtInEditors :=
                <[k := {| s_enabled := value; s_grouped := s_grouped entry |}]>
                  (builtInEditors s);
              customEditors := customEditors s |}
  | None => None
  end.

(** [settings.builtInEditors[editor.id].grouped = value]. *)
Definition setBuiltInGrouped (k : string) (value : bool) (s : PluginSettings)
  : option PluginSettings :=
  match builtInEditors s !! k with
  | Some entry =>
      Some {| builtInEditors :=
                <[k := {| s_enabled := s_enabled entry; s_grouped := value |}]>
                  (builtInEditors s);
              customEditors := customEditors s |}
  | None => None
  end.

(** The five editable fields of a custom editor block. *)
Inductive CustomField :=
  | SetName (value : string)
  | SetAppName (value : string)
  | SetCommand (value : string)
  | SetEnabled (value : bool)
  | SetGrouped (value : bool).

Definition applyField (f : CustomField) (c : CustomEditorConfig) : CustomEditorConfig :=
  match f with
  | SetName v =>
      {| c_id := c_id c; c_name := v; c_appName := c_appName c;
         c_command := c_command c; c_enabled := c_enabled c; c_grouped := c_grouped c |}
  | SetAppName v =>
      {| c_id := c_id c; c_name := c_name c; c_appName := v;
         c_command := c_command c; c_enabled := c_enabled c; c_grouped := c_grouped c |}
  | SetCommand v =>
      {| c_id := c_id c; c_name := c_name c; c_appName := c_appName c;
         c_command := v; c_enabled := c_enabled c; c_grouped := c_grouped c |}
  | SetEnabled v =>
      {| c_id := c_id c; c_name := c_name c; c_appName := c_appName c;
         c_command := c_command c; c_enabled := v; c_grouped := c_grouped c |}
  | SetGrouped v =>
      {| c_id := c_id c; c_name := c_name c; c_appName := c_appName c;
         c_command := c_command c; c_enabled := c_enabled c; c_grouped := v |}
  end.

(** [settings.customEditors[index].<field> = value]; an index past the end
    reads [undefined] and the assignment throws. *)
Definition setCustomField (index : nat) (f : CustomField) (s : PluginSettings)
  : option PluginSettings :=
  match customEditors s !! index with
  | Some c =>
      Some {| builtInEditors := builtInEditors s;
              customEditors := <[index := applyField f c]> (customEditors s) |}
  | None => None
  end.

(** The change handlers of the settings tab. *)
Inductive SettingsAction :=
  | BuiltInEnable (k : string) (value : bool)
  | BuiltInGroup (k : string) (value : bool)
  | CustomAdd (now : Z)
  | CustomEdit (index : nat) (f : CustomField)
  | CustomDelete (index : nat).

(** The first statement of each change handler only: the assignment to the
    settings object (or the push or splice). What follows it in the handler,
    [saveSettings()] and for some handlers [this.display()], is in
    [runHandler] below. *)
Definition applyAction (s : PluginSettings) (a : SettingsAction)
  : option PluginSettings :=
  match a with
  | BuiltInEnable k v => setBuiltInEnabled k v s
  | BuiltInGroup k v => setBuiltInGrouped k v s
  | CustomAdd now => Some (addCustomEditor now s)
  | CustomEdit index f => setCustomField index f s
  | CustomDelete index => Some (deleteCustomEditor index s)
  end.

(** The plugin's settings in memory and what the host has on disk. *)
Record TabState := mkTabState {
  st_settings : PluginSettings;
  st_disk : option PersistedData;
}.

(** What [display()] renders for a built-in editor: the header and the two
    toggles. *)
Record BuiltInRow := mkBuiltInRow {
  br_header : string;
  br_enable : bool;
  br_group : bool;
  br_groupDisabled : bool;
}.

(** What [display()] renders for a custom editor: three text fields, two
    toggles and the delete button with the index it captured. *)
Record CustomRow := mkCustomRow {
  cr_name : string;
  cr_appName : string;
  cr_command : string;
  cr_enable : bool;
  cr_group : bool;
  cr_groupDisabled : bool;
  cr_index : nat;
}.

(** [createBuiltInEditorSetting]: [settings.enabled] is read without a guard,
    so a missing entry throws. *)
Definition createBuiltInEditorSetting (s : PluginSettings) (editor : EditorTemplate)
  : option BuiltInRow :=
  match builtInEditors s !! t_id editor with
  | Some settings =>
      Some {| br_header := t_name editor;
              br_enable := s_enabled settings;
              br_group := s_grouped settings;
              br_groupDisabled := negb (s_enabled settings) |}
  | None => None
  end.

Definition createCustomEditorSetting (s : PluginSettings) (index : nat)
  : option CustomRow :=
  match customEditors s !! index with
  | Some editor =>
      Some {| cr_name := c_name editor;
              cr_appName := c_appName editor;
              cr_command := c_command editor;
              cr_enable := c_enabled editor;
              cr_group := c_grouped editor;
              cr_groupDisabled := negb (c_enabled editor);
              cr_index := index |}
  | None => None
  end.

(** [display()]: the built-in rows in declaration order, then one row per
    index of the custom-editor list. *)
Definition display (s : PluginSettings) : option (list BuiltInRow * list CustomRow) :=
  builtIns ← mapM (createBuiltInEditorSetting s) BUILT_IN_EDITORS;
  customs ← mapM (createCustomEditorSetting s) (seq 0 (length (customEditors s)));
  Some (builtIns, customs).

(** How a change handler ends: it runs to its end, or a [TypeError] escapes
    it (a property of [undefined] was read or assigned). *)
Inductive Outcome :=
  | Done
  | TypeError.

#[global] Instance Outcome_eq_dec : EqDecision Outcome.
Proof. solve_decision. Defined.

(** The handlers that end with [this.display()]: the enable toggles of
    built-in and custom editors, the add button and the delete buttons. The
    group toggles and the text fields do not re-render. *)
Definition rerenders (a : SettingsAction) : bool :=
  match a with
  | BuiltInEnable _ _ => true
  | BuiltInGroup _ _ => false
  | CustomAdd _ => true
  | CustomEdit _ (SetEnabled _) => true
  | CustomEdit _ _ => false
  | CustomDelete _ => true
  end.

(** A change handler in full: the assignment, [saveSettings()], and for the
    handlers that re-render [this.display()]. When the assignment throws,
    nothing was assigned or saved. When [display()] throws, the change is
    already in memory and on disk. *)
Definition runHandler (st : TabState) (a : SettingsAction) : TabState * Outcome :=
  match applyAction (st_settings st) a with
  | None => (st, TypeError)
  | Some s' =>
      let st' := {| st_settings := s'; st_disk := Some (saveData s') |} in
      if rerenders a then
        match display s' with
        | Some _ => (st', Done)
        | None => (st', TypeError)
        end
      else (st', Done)
  end.

(** The state a handler leaves when it runs to its end. *)
Definition handle (st : TabState) (a : SettingsAction) : option TabState :=
  match runHandler st a with
  | (st', Done) => Some st'
  | (_, TypeError) => None
  end.

Fixpoint handleAll (st : TabState) (actions : list SettingsAction) : option TabState :=
  match actions with
  | [] => Some st
  | a :: actions => st' ← handle st a; handleAll st' actions
  end.

(** Plugin activation: [loadSettings] from what is on disk. *)
Definition activate_plugin (disk : option PersistedData) : TabState :=
  {| st_settings := loadSettings disk; st_disk := disk |}.

(** * Specification-level definitions

    Projections, characterisations and sample inputs used to state the
    properties below. *)

(** The entries for built-in editors that the persisted object itself holds
    (none when nothing was stored or the key is absent). *)
Definition persistedBuiltIns (data : option PersistedData) : gmap string BuiltInSetting :=
  match data with
  | Some d => default ∅ (p_builtInEditors d)
  | None => ∅
  end.

Definition builtInIds : list string := map t_id BUILT_IN_EDITORS.

Definition defaultEntry : BuiltInSetting := mkBuiltInSetting false false.

(** [listEnabledEditors()] as the specification words it: the built-in
    editors whose settings entry has enabled=true, in declaration order and
    with the grouped flag applied, followed by the custom editors with
    enabled=true, in stored order. *)
Definition builtInEnabled (s : PluginSettings) (e : EditorTemplate) : bool :=
  match builtInEditors s !! t_id e with
  | Some st => s_enabled st
  | None => false
  end.

Definition builtInGrouped (s : PluginSettings) (e : EditorTemplate) : bool :=
  match builtInEditors s !! t_id e with
  | Some st => s_grouped st
  | None => false
  end.

Definition enabledBuiltIns (s : PluginSettings) : list EditorTemplate :=
  List.filter (builtInEnabled s) BUILT_IN_EDITORS.

Definition enabledCustoms (s : PluginSettings) : list CustomEditorConfig :=
  List.filter c_enabled (customEditors s).

Definition listEnabledEditors_spec (s : PluginSettings) : list EditorConfig :=
  (map (λ e, ofBuiltIn e (builtInGrouped s e)) (enabledBuiltIns s)
   ++ map ofCustom (enabledCustoms s))%list.

(** Settings used to exercise the statements: VS Code enabled and ungrouped,
    Zed enabled and grouped, Cursor present but disabled, the other built-ins
    without an entry; one enabled and one disabled custom editor. *)
Definition sampleSettings : PluginSettings :=
  {| builtInEditors :=
       <["zed" := mkBuiltInSetting true true]>
         (<["cursor" := mkBuiltInSetting false true]>
            (<["vscode" := mkBuiltInSetting true false]> ∅));
     customEditors :=
       [ mkCustomEditorConfig "custom-1700000000000" "Sublime" "Sublime Text" "subl" true false;
         mkCustomEditorConfig "custom-1700000000001" "Idea" "IntelliJ IDEA" "idea" false true ] |}.

(** [settings.builtInEditors[k] = entry]. *)
Definition setBuiltIn (k : string) (entry : BuiltInSetting) (s : PluginSettings)
  : PluginSettings :=
  {| builtInEditors := <[k := entry]> (builtInEditors s);
     customEditors := customEditors s |}.

(** The three kinds of entries [addEditorMenuItems] builds. *)
Definition topEntry (file : option TAbstractFile) (editor : EditorConfig) : MenuItem :=
  mkMenuItem ("Open in " +:+ name editor) "code"
             (Some (OpenInEditorClick editor file)) None.

Definition subEntry (file : option TAbstractFile) (editor : EditorConfig) : MenuItem :=
  mkMenuItem (name editor) "code" (Some (OpenInEditorClick editor file)) None.

Definition parentEntry (file : option TAbstractFile) (groupedEditors : list EditorConfig)
  : MenuItem :=
  mkMenuItem "Open in External Editor" "code" None
             (Some (map (subEntry file) groupedEditors)).

(** Settings with exactly two enabled editors: VS Code ungrouped, Zed grouped. *)
Definition abSettings : PluginSettings :=
  {| builtInEditors :=
       <["zed" := mkBuiltInSetting true true]>
         (<["vscode" := mkBuiltInSetting true false]> ∅);
     customEditors := [] |}.

(** The entries of a contributed menu that can be activated: the top-level
    ones and those of their submenus. *)
Definition allEntries (menu : Menu) : list MenuItem :=
  (menu ++ flat_map (λ item, default [] (submenu item)) menu)%list.

(** The absolute path [openInEditor] resolves its target to, when the
    adapter yields one. *)
Definition fullPathOf (host : Host) (file : option TAbstractFile) : option string :=
  match file with
  | Some f => getFullPath host (path f)
  | None => Some (basePath host)
  end.

(** Projections of a trace: the commands executed and the notices shown. *)
Definition execs (tr : list Event) : list string :=
  omap (λ ev, match ev with EvExec cmd => Some cmd | _ => None end) tr.

Definition notices (tr : list Event) : list string :=
  omap (λ ev, match ev with EvNotice msg => Some msg | _ => None end) tr.

Definition successMsg (editor : EditorConfig) : string :=
  "Opening in " +:+ name editor.

Definition failureMsg (editor : EditorConfig) : string :=
  "Failed to open in " +:+ name editor +:+ ". Make sure " +:+ name editor
  +:+ " is installed.".

Definition errorLog (editor : EditorConfig) : string :=
  "Error opening in " +:+ name editor +:+ ":".

(** The events one call of [openInEditor] appends. *)
Definition launchEvents (host : Host) (editor : EditorConfig)
    (file : option TAbstractFile) : list Event :=
  match fullPathOf host file with
  | None => [EvConsoleError (errorLog editor) HostError; EvNotice (failureMsg editor)]
  | Some p =>
      let cmd := buildCommand host editor p in
      let o := runProcess host cmd in
      if exec_succeeds o then [EvExec cmd; EvNotice (successMsg editor)]
      else [EvExec cmd; EvConsoleError (errorLog editor) (ExecFailure o);
            EvNotice (failureMsg editor)]
  end.

(** A host on the given platform whose vault lives in [/vault] and whose
    every command exits with the given outcome. *)
Definition vaultHost (pf : string) (o : ExecOutcome) : Host :=
  {| platform := pf;
     getFullPath := λ p, Some ("/vault/" +:+ p);
     basePath := "/vault";
     runProcess := λ _, o |}.

(** Enabled descriptors of two built-in editors, both ungrouped. *)
Definition vscode : EditorConfig :=
  ofBuiltIn (mkEditorTemplate "vscode" "VS Code" "Visual Studio Code" "code" true) false.

Definition zed : EditorConfig :=
  ofBuiltIn (mkEditorTemplate "zed" "Zed" "Zed" "zed" true) false.

(** The ids currently held by the custom-editor list, in stored order. *)
Definition customIds (s : PluginSettings) : list string :=
  map c_id (customEditors s).

(** Every built-in editor id has a settings entry. *)
Definition complete (s : PluginSettings) : Prop :=
  Forall (λ e, is_Some (builtInEditors s !! t_id e)) BUILT_IN_EDITORS.

(** An action a rendered settings tab can trigger: its built-in toggles
    belong to entries that exist, its custom blocks to indices in range. *)
Definition validAction (s : PluginSettings) (a : SettingsAction) : Prop :=
  match a with
  | BuiltInEnable k _ | BuiltInGroup k _ => is_Some (builtInEditors s !! k)
  | CustomEdit index _ => index < length (customEditors s)
  | CustomAdd _ | CustomDelete _ => True
  end.

(** The editor a menu entry launches when clicked. *)
Definition handlerEditor (item : MenuItem) : option EditorConfig :=
  match onClick item with
  | Some (OpenInEditorClick editor _) => Some editor
  | None => None
  end.

(** The rows [display()] shows, read off the settings. *)
Definition builtInRow (s : PluginSettings) (e : EditorTemplate) : BuiltInRow :=
  {| br_header := t_name e;
     br_enable := builtInEnabled s e;
     br_group := builtInGrouped s e;
     br_groupDisabled := negb (builtInEnabled s e) |}.

Definition customRow (index : nat) (c : CustomEditorConfig) : CustomRow :=
  {| cr_name := c_name c; cr_appName := c_appName c; cr_command := c_command c;
     cr_enable := c_enabled c; cr_group := c_grouped c;
     cr_groupDisabled := negb (c_enabled c); cr_index := index |}.

(** A descriptor with its grouped flag replaced, if it is the built-in
    editor with id [k]. *)
Definition regroup (k : string) (value : bool) (e : EditorConfig) : EditorConfig :=
  if bool_decide (isBuiltIn e = true ∧ id e = k)
  then {| id := id e; name := name e; appName := appName e; command := command e;
          enabled := enabled e; grouped := value; isBuiltIn := isBuiltIn e |}
  else e.

(** A session in the settings tab: enable Zed, add a custom editor, name and
    enable it, group Zed, and a delete at an index past the end. *)
Definition sampleActions : list SettingsAction :=
  [ BuiltInEnable "zed" true; CustomAdd 1700000000000;
    CustomEdit 0 (SetName "Vim"); CustomEdit 0 (SetEnabled true);
    BuiltInGroup "zed" true; CustomDelete 3 ].

(** * Properties *)

(** ** Settings store: back-filling on load *)

Lemma foldl_insert_lookup {V} (entries : list (string * V)) (m : gmap string V) k d :
  Forall (λ kv, kv.2 = d) entries →
  foldl (λ m kv, <[kv.1 := kv.2]> m) m entries !! k =
    if bool_decide (k ∈ map fst entries) then Some d else m !! k.
Proof.
  revert m. induction entries as [|[k' v] entries IH]; intros m Hall;
    cbn [foldl map fst snd].
  - rewrite bool_decide_eq_false_2; [done | apply not_elem_of_nil].
  - apply Forall_cons in Hall as [Hv Hall]. cbn [snd] in Hv. subst v.
    rewrite IH by done.
    destruct (decide (k ∈ map fst entries)) as [Hin | Hin].
    + rewrite !bool_decide_eq_true_2; [done | by apply elem_of_cons; right | done].
    + rewrite (bool_decide_eq_false_2 _ Hin).
      destruct (decide (k = k')) as [-> | Hne].
      * rewrite lookup_insert_eq, bool_decide_eq_true_2; [done | apply elem_of_cons; by left].
      * rewrite lookup_insert_ne by done.
        rewrite bool_decide_eq_false_2; [done |].
        rewrite elem_of_cons. intros [? | ?]; done.
Qed.

Lemma DEFAULT_SETTINGS_lookup k :
  builtInEditors DEFAULT_SETTINGS !! k =
    if bool_decide (k ∈ builtInIds) then Some defaultEntry else None.
Proof.
  unfold DEFAULT_SETTINGS, fromEntries, builtInIds. cbn [builtInEditors].
  rewrite (foldl_insert_lookup _ _ k defaultEntry).
  - rewrite <- list_fmap_compose, lookup_empty. done.
  - apply Forall_fmap, Forall_true. done.
Qed.

Lemma backfill_customEditors s l :
  customEditors (foldl backfill s l) = customEditors s.
Proof.
  revert s. induction l as [|e l IH]; intros s; simpl; [done |].
  rewrite IH. unfold backfill. by destruct (builtInEditors s !! t_id e).
Qed.

Lemma backfill_lookup s l k :
  builtInEditors (foldl backfill s l) !! k =
    match builtInEditors s !! k with
    | Some v => Some v
    | None => if bool_decide (k ∈ map t_id l) then Some defaultEntry else None
    end.
Proof.
  revert s. induction l as [|e l IH]; intros s; cbn [foldl map].
  - destruct (builtInEditors s !! k); [done |].
    rewrite bool_decide_eq_false_2; [done | apply not_elem_of_nil].
  - rewrite IH. unfold backfill.
    destruct (builtInEditors s !! t_id e) as [v|] eqn:He.
    + destruct (builtInEditors s !! k) eqn:Hk; [done |].
      assert (k ≠ t_id e) as Hne by congruence.
      apply (f_equal (λ b : bool, if b then Some defaultEntry else None)).
      apply bool_decide_ext. rewrite elem_of_cons.
        split; [by right | intros [? | ?]; done].
    + cbn [builtInEditors].
      destruct (decide (k = t_id e)) as [-> | Hne].
      * rewrite lookup_insert_eq, He.
        rewrite bool_decide_eq_true_2; [done | apply elem_of_cons; by left].
      * rewrite lookup_insert_ne by done.
        destruct (builtInEditors s !! k); [done |].
        apply (f_equal (λ b : bool, if b then Some defaultEntry else None)).
        apply bool_decide_ext. rewrite elem_of_cons.
        split; [by right | intros [? | ?]; done].
Qed.

(** Every entry of the loaded settings, in terms of what was persisted. *)
Lemma loadSettings_lookup data k :
  builtInEditors (loadSettings data) !! k =
    match persistedBuiltIns data !! k with
    | Some v => Some v
    | None => if bool_decide (k ∈ builtInIds) then Some defaultEntry else None
    end.
Proof.
  unfold loadSettings. rewrite backfill_lookup. fold builtInIds.
  destruct data as [[[m|] cs]|]; simpl.
  - done.
  - rewrite lookup_empty, DEFAULT_SETTINGS_lookup. by case_bool_decide.
  - rewrite lookup_empty, DEFAULT_SETTINGS_lookup. by case_bool_decide.
Qed.

(** C3: for every result of [loadData()], the loaded settings hold every
    persisted entry with its stored flags, hold [{enabled:false, grouped:false}]
    for exactly the built-in ids that had no persisted entry, hold nothing
    else, and so have an entry for every built-in editor id. *)
Theorem loadSettings_backfills_missing (data : option PersistedData) :
  let stored := persistedBuiltIns data in
  let loaded := builtInEditors (loadSettings data) in
  (∀ k, loaded !! k =
          match stored !! k with
          | Some v => Some v
          | None => if bool_decide (k ∈ builtInIds)
                    then Some (mkBuiltInSetting false false) else None
          end) ∧
  stored ⊆ loaded ∧
  dom loaded = dom stored ∪ list_to_set builtInIds ∧
  Forall (λ e, is_Some (loaded !! t_id e)) BUILT_IN_EDITORS.
Proof.
  intros stored loaded.
  assert (∀ k, loaded !! k =
          match stored !! k with
          | Some v => Some v
          | None => if bool_decide (k ∈ builtInIds)
                    then Some (mkBuiltInSetting false false) else None
          end) as Hlk by (intros k; apply loadSettings_lookup).
  split; [exact Hlk |]. split; [| split].
  - apply map_subseteq_spec. intros k v Hk. by rewrite Hlk, Hk.
  - apply set_eq. intros k.
    rewrite elem_of_union, !elem_of_dom, elem_of_list_to_set, Hlk.
    destruct (stored !! k) as [v|].
    + split; [intros _; left; by eexists | intros _; by eexists].
    + case_bool_decide as Hin.
      * split; [intros _; by right | intros _; by eexists].
      * split; [intros [? ?]; done | intros [[? ?] | ?]; done].
  - apply Forall_forall. intros e He. rewrite Hlk.
    destruct (stored !! t_id e); [by eexists |].
    rewrite bool_decide_eq_true_2; [by eexists |].
    unfold builtInIds. apply list_elem_of_fmap. by exists e.
Qed.

(** A stored object that only knows Zed: its entry survives, the other
    built-ins are back-filled, foreign keys stay absent. *)
Lemma loadSettings_backfills_missing_witness :
  let data := Some (mkPersistedData (Some {["zed" := mkBuiltInSetting true true]}) None) in
  builtInEditors (loadSettings data) !! "zed" = Some (mkBuiltInSetting true true) ∧
  builtInEditors (loadSettings data) !! "vscode" = Some (mkBuiltInSetting false false) ∧
  builtInEditors (loadSettings data) !! "sublime" = None ∧
  dom (builtInEditors (loadSettings data)) = list_to_set builtInIds.
Proof.
  intros data.
  destruct (loadSettings_backfills_missing data) as (Hlk & _ & Hdom & _).
  cbv zeta in Hlk, Hdom. rewrite !Hlk, Hdom.
  repeat split; vm_compute; reflexivity.
Defined.

(** ** Editor registry *)

Lemma pushBuiltIn_app s acc e :
  pushBuiltIn s acc e =
    (acc ++ if builtInEnabled s e then [ofBuiltIn e (builtInGrouped s e)] else [])%list.
Proof.
  unfold pushBuiltIn, builtInEnabled, builtInGrouped.
  destruct (builtInEditors s !! t_id e) as [st|]; [| by rewrite app_nil_r].
  destruct (s_enabled st); [done | by rewrite app_nil_r].
Qed.

Lemma foldl_pushBuiltIn s l acc :
  foldl (pushBuiltIn s) acc l =
    (acc ++ map (λ e, ofBuiltIn e (builtInGrouped s e))
              (List.filter (builtInEnabled s) l))%list.
Proof.
  revert acc. induction l as [|e l IH]; intros acc; cbn [foldl List.filter].
  - by rewrite app_nil_r.
  - rewrite IH, pushBuiltIn_app.
    destruct (builtInEnabled s e); cbn [map]; by rewrite <- app_assoc.
Qed.

Lemma foldl_pushCustom l acc :
  foldl pushCustom acc l = (acc ++ map ofCustom (List.filter c_enabled l))%list.
Proof.
  revert acc. induction l as [|c l IH]; intros acc; cbn [foldl List.filter].
  - by rewrite app_nil_r.
  - rewrite IH. unfold pushCustom.
    destruct (c_enabled c); [| done].
    cbn [map]. by rewrite <- app_assoc.
Qed.

Lemma getEnabledEditors_unfold s :
  getEnabledEditors s = listEnabledEditors_spec s.
Proof.
  unfold getEnabledEditors, listEnabledEditors_spec, enabledBuiltIns, enabledCustoms.
  by rewrite foldl_pushCustom, foldl_pushBuiltIn.
Qed.

(** Where an element of the result comes from. *)
Lemma elem_of_getEnabledEditors s e :
  e ∈ getEnabledEditors s ↔
    (∃ b st, b ∈ BUILT_IN_EDITORS ∧ builtInEditors s !! t_id b = Some st ∧
             s_enabled st = true ∧ e = ofBuiltIn b (s_grouped st)) ∨
    (∃ c, c ∈ customEditors s ∧ c_enabled c = true ∧ e = ofCustom c).
Proof.
  rewrite getEnabledEditors_unfold. unfold listEnabledEditors_spec.
  rewrite elem_of_app, !list_elem_of_fmap.
  unfold enabledBuiltIns, enabledCustoms. split.
  - intros [(b & -> & Hb) | (c & -> & Hc)].
    + apply list_elem_of_In, filter_In in Hb as [Hb Hen].
      apply list_elem_of_In in Hb. left.
      unfold builtInEnabled in Hen. unfold builtInGrouped.
      destruct (builtInEditors s !! t_id b) as [st|] eqn:Hst; [| done].
      by exists b, st.
    + apply list_elem_of_In, filter_In in Hc as [Hc Hen].
      apply list_elem_of_In in Hc. right. by exists c.
  - intros [(b & st & Hb & Hst & Hen & ->) | (c & Hc & Hen & ->)].
    + left. exists b. unfold builtInGrouped. rewrite Hst. split; [done |].
      apply list_elem_of_In, filter_In. split; [by apply list_elem_of_In |].
      unfold builtInEnabled. by rewrite Hst.
    + right. exists c. split; [done |].
      apply list_elem_of_In, filter_In. split; [by apply list_elem_of_In | done].
Qed.

Lemma BUILT_IN_EDITORS_isBuiltIn b : b ∈ BUILT_IN_EDITORS → t_isBuiltIn b = true.
Proof.
  intros Hb. unfold BUILT_IN_EDITORS in Hb.
  repeat (apply elem_of_cons in Hb as [-> | Hb]; [done |]).
  by apply not_elem_of_nil in Hb.
Qed.

(** C6: every descriptor returned by [getEnabledEditors] is marked enabled
    and stems from an enabled source: a built-in editor whose settings entry
    has enabled=true, or a stored custom editor with enabled=true. Hence a
    built-in editor whose entry has enabled=false is not returned, and
    neither is a custom editor id all of whose stored editors are disabled. *)
Theorem getEnabledEditors_only_enabled (s : PluginSettings) :
  (∀ e, e ∈ getEnabledEditors s →
     enabled e = true ∧
     ((isBuiltIn e = true ∧
       ∃ b st, b ∈ BUILT_IN_EDITORS ∧ builtInEditors s !! t_id b = Some st ∧
               s_enabled st = true ∧ e = ofBuiltIn b (s_grouped st)) ∨
      (isBuiltIn e = false ∧
       ∃ c, c ∈ customEditors s ∧ c_enabled c = true ∧ e = ofCustom c))) ∧
  (∀ b st, b ∈ BUILT_IN_EDITORS → builtInEditors s !! t_id b = Some st →
     s_enabled st = false →
     ∀ e, e ∈ getEnabledEditors s → isBuiltIn e = true → id e ≠ t_id b) ∧
  (∀ k, (∀ c, c ∈ customEditors s → c_id c = k → c_enabled c = false) →
     ∀ e, e ∈ getEnabledEditors s → isBuiltIn e = false → id e ≠ k).
Proof.
  split; [| split].
  - intros e He. apply elem_of_getEnabledEditors in He
      as [(b & st & Hb & Hst & Hen & ->) | (c & Hc & Hen & ->)].
    + split; [done |]. left. split.
      * cbn. by apply BUILT_IN_EDITORS_isBuiltIn.
      * by exists b, st.
    + split; [done |]. right. split; [done |]. by exists c.
  - intros b st _ Hst Hdis e He Hbi Heq.
    apply elem_of_getEnabledEditors in He
      as [(b' & st' & _ & Hst' & Hen & ->) | (c & _ & _ & ->)]; [| done].
    cbn in Heq. rewrite Heq in Hst'. congruence.
  - intros k Hall e He Hbi Heq.
    apply elem_of_getEnabledEditors in He
      as [(b' & st' & Hb' & _ & _ & ->) | (c & Hc & Hen & ->)].
    + cbn in Hbi. apply BUILT_IN_EDITORS_isBuiltIn in Hb'. congruence.
    + cbn in Heq. specialize (Hall c Hc Heq). congruence.
Qed.

Lemma getEnabledEditors_only_enabled_witness :
  let e := ofBuiltIn (mkEditorTemplate "zed" "Zed" "Zed" "zed" true) true in
  enabled e = true ∧
  ((isBuiltIn e = true ∧
    ∃ b st, b ∈ BUILT_IN_EDITORS ∧ builtInEditors sampleSettings !! t_id b = Some st ∧
            s_enabled st = true ∧ e = ofBuiltIn b (s_grouped st)) ∨
   (isBuiltIn e = false ∧
    ∃ c, c ∈ customEditors sampleSettings ∧ c_enabled c = true ∧ e = ofCustom c)).
Proof.
  intros e.
  destruct (getEnabledEditors_only_enabled sampleSettings) as (Hin & _).
  apply (Hin e).
  apply (bool_decide_unpack (e ∈ getEnabledEditors sampleSettings)).
  vm_compute. exact I.
Defined.

Lemma sublist_List_filter {A} (f : A → bool) (l : list A) :
  sublist (List.filter f l) l.
Proof.
  induction l as [|x l IH]; cbn [List.filter]; [constructor |].
  destruct (f x); by constructor.
Qed.

(** C7: the result is the enabled built-in editors in the declaration order
    of [BUILT_IN_EDITORS] followed by the enabled custom editors in stored
    order: it is the concatenation of two order-preserving selections, one
    from the built-in list and one from the stored custom list, each holding
    exactly the enabled members. Field by field, the returned descriptors
    carry the id, name, application name and command of their editors in
    that order, the grouped flag of their settings, enabled=true, and the
    built-in mark on the first part only. *)
Theorem getEnabledEditors_order (s : PluginSettings) :
  getEnabledEditors s =
    (map (λ e, ofBuiltIn e (builtInGrouped s e)) (enabledBuiltIns s)
     ++ map ofCustom (enabledCustoms s))%list ∧
  sublist (enabledBuiltIns s) BUILT_IN_EDITORS ∧
  sublist (enabledCustoms s) (customEditors s) ∧
  (∀ b, b ∈ enabledBuiltIns s ↔
        b ∈ BUILT_IN_EDITORS ∧
        ∃ st, builtInEditors s !! t_id b = Some st ∧ s_enabled st = true) ∧
  (∀ c, c ∈ enabledCustoms s ↔ c ∈ customEditors s ∧ c_enabled c = true) ∧
  map id (getEnabledEditors s) =
    (map t_id (enabledBuiltIns s) ++ map c_id (enabledCustoms s))%list ∧
  map name (getEnabledEditors s) =
    (map t_name (enabledBuiltIns s) ++ map c_name (enabledCustoms s))%list ∧
  map appName (getEnabledEditors s) =
    (map t_appName (enabledBuiltIns s) ++ map c_appName (enabledCustoms s))%list ∧
  map command (getEnabledEditors s) =
    (map t_command (enabledBuiltIns s) ++ map c_command (enabledCustoms s))%list ∧
  map grouped (getEnabledEditors s) =
    (map (builtInGrouped s) (enabledBuiltIns s)
     ++ map c_grouped (enabledCustoms s))%list ∧
  map isBuiltIn (getEnabledEditors s) =
    (map (λ _, true) (enabledBuiltIns s) ++ map (λ _, false) (enabledCustoms s))%list ∧
  Forall (λ e, enabled e = true) (getEnabledEditors s) ∧
  sublist (map id (getEnabledEditors s))
          (map t_id BUILT_IN_EDITORS ++ map c_id (customEditors s))%list.
Proof.
  split; [apply getEnabledEditors_unfold |].
  split; [apply sublist_List_filter |].
  split; [apply sublist_List_filter |].
  split.
  { intros b. unfold enabledBuiltIns.
    rewrite !list_elem_of_In, filter_In. unfold builtInEnabled.
    destruct (builtInEditors s !! t_id b) as [st|].
    + split; [intros [? ?]; split; [done | by exists st]
             | intros [? (st' & [= <-] & ?)]; done].
    + split; [intros [? ?]; done | intros [? (st' & ? & ?)]; done]. }
  split.
  { intros c. unfold enabledCustoms. by rewrite !list_elem_of_In, filter_In. }
  assert (map id (getEnabledEditors s) =
          (map t_id (enabledBuiltIns s) ++ map c_id (enabledCustoms s))%list) as Hids.
  { rewrite getEnabledEditors_unfold. unfold listEnabledEditors_spec.
    by rewrite map_app, !map_map. }
  rewrite Hids. rewrite getEnabledEditors_unfold. unfold listEnabledEditors_spec.
  rewrite !map_app, !map_map.
  split; [done |]. split; [done |]. split; [done |]. split; [done |].
  split; [done |]. split; [| split].
  - f_equal. apply map_ext_in. intros e He. cbn.
    apply BUILT_IN_EDITORS_isBuiltIn.
    unfold enabledBuiltIns in He. apply filter_In in He as [He _].
    by apply list_elem_of_In.
  - apply Forall_app. split; apply Forall_forall; intros e He;
      by apply list_elem_of_fmap in He as (x & -> & _).
  - apply sublist_app.
    + apply (fmap_sublist t_id), sublist_List_filter.
    + apply (fmap_sublist c_id), sublist_List_filter.
Qed.

Lemma getEnabledEditors_order_witness :
  getEnabledEditors sampleSettings =
    [ {| id := "vscode"; name := "VS Code"; appName := "Visual Studio Code";
         command := "code"; enabled := true; grouped := false; isBuiltIn := true |};
      {| id := "zed"; name := "Zed"; appName := "Zed";
         command := "zed"; enabled := true; grouped := true; isBuiltIn := true |};
      {| id := "custom-1700000000000"; name := "Sublime"; appName := "Sublime Text";
         command := "subl"; enabled := true; grouped := false; isBuiltIn := false |} ] ∧
  map id (getEnabledEditors sampleSettings) = ["vscode"; "zed"; "custom-1700000000000"].
Proof.
  destruct (getEnabledEditors_order sampleSettings) as (Heq & _ & _ & _ & _ & Hids & _).
  split; [rewrite Heq | rewrite Hids]; vm_compute; reflexivity.
Defined.

Lemma pushBuiltIn_missing_as_disabled s k g acc e :
  builtInEditors s !! k = None →
  pushBuiltIn (setBuiltIn k (mkBuiltInSetting false g) s) acc e = pushBuiltIn s acc e.
Proof.
  intros Hk. unfold pushBuiltIn, setBuiltIn. cbn [builtInEditors].
  destruct (decide (k = t_id e)) as [-> | Hne].
  - by rewrite lookup_insert_eq, Hk.
  - by rewrite lookup_insert_ne.
Qed.

Lemma foldl_step_ext {A B} (f g : A → B → A) (l : list B) (a : A) :
  (∀ a b, f a b = g a b) → foldl f a l = foldl g a l.
Proof.
  intros Hfg. revert a. induction l as [|b l IH]; intros a; cbn [foldl]; [done |].
  by rewrite Hfg, IH.
Qed.

(** C9: when a built-in editor id has no settings entry, [getEnabledEditors]
    still yields its list, that editor is not in it, and the list is the one
    obtained had the entry been present with enabled=false. *)
Theorem getEnabledEditors_missing_entry (s : PluginSettings) (b : EditorTemplate) :
  b ∈ BUILT_IN_EDITORS →
  builtInEditors s !! t_id b = None →
  (∀ g, ofBuiltIn b g ∉ getEnabledEditors s) ∧
  (∀ e, e ∈ getEnabledEditors s → isBuiltIn e = true → id e ≠ t_id b) ∧
  (∀ g, getEnabledEditors s =
        getEnabledEditors (setBuiltIn (t_id b) (mkBuiltInSetting false g) s)).
Proof.
  intros Hb Hnone.
  assert (∀ e, e ∈ getEnabledEditors s → isBuiltIn e = true → id e ≠ t_id b) as Hid.
  { intros e He Hbi Heq.
    apply elem_of_getEnabledEditors in He
      as [(b' & st & _ & Hst & _ & ->) | (c & _ & _ & ->)]; [| done].
    cbn in Heq. rewrite Heq in Hst. congruence. }
  split; [| split; [exact Hid |]].
  - intros g Hin. apply (Hid _ Hin); [| done].
    cbn. by apply BUILT_IN_EDITORS_isBuiltIn.
  - intros g. unfold getEnabledEditors. cbn [customEditors setBuiltIn].
    f_equal. apply foldl_step_ext. intros acc e.
    symmetry. by apply pushBuiltIn_missing_as_disabled.
Qed.

Lemma getEnabledEditors_missing_entry_witness :
  let b := mkEditorTemplate "windsurf" "Windsurf" "Windsurf" "windsurf" true in
  (∀ g, ofBuiltIn b g ∉ getEnabledEditors sampleSettings) ∧
  (∀ e, e ∈ getEnabledEditors sampleSettings → isBuiltIn e = true → id e ≠ t_id b) ∧
  (∀ g, getEnabledEditors sampleSettings =
        getEnabledEditors (setBuiltIn (t_id b) (mkBuiltInSetting false g) sampleSettings)).
Proof.
  intros b. apply (getEnabledEditors_missing_entry sampleSettings b).
  - apply (bool_decide_unpack (b ∈ BUILT_IN_EDITORS)). vm_compute. exact I.
  - vm_compute. reflexivity.
Defined.

(** ** Menu contributor *)

Lemma foldl_addItem {A} (cb : A → MenuItem → MenuItem) (l : list A) (menu : Menu) :
  foldl (λ menu x, addItem menu (cb x)) menu l =
    (menu ++ map (λ x, cb x newItem) l)%list.
Proof.
  revert menu. induction l as [|x l IH]; intros menu; cbn [foldl map].
  - by rewrite app_nil_r.
  - rewrite IH. unfold addItem. by rewrite <- app_assoc.
Qed.

Lemma filter_nil_existsb {A} (f : A → bool) (l : list A) :
  (0 <? length (List.filter f l))%nat = existsb f l.
Proof.
  induction l as [|x l IH]; cbn [List.filter existsb]; [done |].
  destruct (f x); [done |]. by rewrite IH.
Qed.

(** The menu after contribution: the menu before, then one entry per
    ungrouped editor, then the parent entry if some editor is grouped. *)
Lemma addEditorMenuItems_shape s menu file :
  addEditorMenuItems s menu file =
    (menu
     ++ map (topEntry file) (List.filter (λ e, negb (grouped e)) (getEnabledEditors s))
     ++ if existsb grouped (getEnabledEditors s)
        then [parentEntry file (List.filter grouped (getEnabledEditors s))]
        else [])%list.
Proof.
  unfold addEditorMenuItems.
  destruct (getEnabledEditors s) as [|e editors] eqn:Heds.
  - cbn. by rewrite app_nil_r.
  - change ((length (e :: editors) =? 0)%nat) with false. cbv iota zeta.
    rewrite (filter_nil_existsb grouped). rewrite !foldl_addItem.
    change (λ e0 : EditorConfig, grouped e0) with grouped.
    destruct (existsb grouped (e :: editors)).
    + unfold addItem. by rewrite <- app_assoc.
    + by rewrite app_nil_r.
Qed.

(** C4: contribution appends to the menu, per enabled editor list: one
    top-level entry "Open in {name}" per ungrouped editor and, if and only if
    some enabled editor is grouped, one parent entry "Open in External
    Editor" whose submenu has one entry per grouped editor. For editors A
    (ungrouped) and B (grouped) that is exactly two top-level entries, the
    second holding one submenu entry for B; with no enabled editor nothing is
    added. *)
Theorem addEditorMenuItems_contributes
    (s : PluginSettings) (menu : Menu) (file : option TAbstractFile) :
  let editors := getEnabledEditors s in
  let added := addEditorMenuItems s [] file in
  addEditorMenuItems s menu file = (menu ++ added)%list ∧
  (∀ A B, grouped A = false → grouped B = true →
          editors = [A; B] ∨ editors = [B; A] →
          added =
            [ mkMenuItem ("Open in " +:+ name A) "code"
                         (Some (OpenInEditorClick A file)) None;
              mkMenuItem "Open in External Editor" "code" None
                (Some [ mkMenuItem (name B) "code"
                                   (Some (OpenInEditorClick B file)) None ]) ]) ∧
  added =
    (map (topEntry file) (List.filter (λ e, negb (grouped e)) editors)
     ++ if existsb grouped editors
        then [parentEntry file (List.filter grouped editors)] else [])%list ∧
  length (List.filter (λ item, bool_decide (is_Some (submenu item))) added) =
    (if existsb grouped editors then 1 else 0)%nat ∧
  ((∃ item, item ∈ added ∧ is_Some (submenu item)) ↔
   (∃ e, e ∈ editors ∧ grouped e = true)) ∧
  (editors = [] → added = []).
Proof.
  intros editors added.
  assert (added =
    (map (topEntry file) (List.filter (λ e, negb (grouped e)) editors)
     ++ if existsb grouped editors
        then [parentEntry file (List.filter grouped editors)] else [])%list) as Hadded.
  { unfold added. by rewrite addEditorMenuItems_shape. }
  assert (∀ l : list EditorConfig,
    List.filter (λ item, bool_decide (is_Some (submenu item))) (map (topEntry file) l) = [])
    as Htop.
  { induction l as [|x l IH]; [done |]. cbn [map List.filter]. cbn. exact IH. }
  split; [| split; [| split; [exact Hadded | split; [| split]]]].
  - unfold added. rewrite !addEditorMenuItems_shape. done.
  - intros A B HA HB [Heds | Heds]; rewrite Hadded, Heds;
      cbn [List.filter existsb map]; rewrite HA, HB; reflexivity.
  - rewrite Hadded, List.filter_app, Htop.
    by destruct (existsb grouped editors).
  - rewrite Hadded. split.
    + intros (item & Hin & Hsub).
      apply elem_of_app in Hin as [Hin | Hin].
      * apply list_elem_of_fmap in Hin as (e & -> & _). by destruct Hsub.
      * destruct (existsb grouped editors) eqn:Hex.
        -- apply existsb_exists in Hex as (e & He & Hg).
           exists e. by rewrite list_elem_of_In.
        -- by apply not_elem_of_nil in Hin.
    + intros (e & He & Hg).
      assert (existsb grouped editors = true) as ->.
      { apply existsb_exists. exists e. by rewrite <- list_elem_of_In. }
      exists (parentEntry file (List.filter grouped editors)). split.
      * apply elem_of_app. right. apply list_elem_of_singleton. done.
      * by eexists.
  - intros Heds. rewrite Hadded, Heds. done.
Qed.

(** The contribution for [sampleSettings]: two direct entries and the parent
    entry with Zed in its submenu. *)
Example addEditorMenuItems_sample :
  map title (addEditorMenuItems sampleSettings [] None) =
    ["Open in VS Code"; "Open in Sublime"; "Open in External Editor"] ∧
  (addEditorMenuItems sampleSettings [] None !! 2%nat) ≫= submenu =
    Some [subEntry None (ofBuiltIn (mkEditorTemplate "zed" "Zed" "Zed" "zed" true) true)].
Proof. split; vm_compute; reflexivity. Qed.

Lemma addEditorMenuItems_contributes_witness :
  let A := ofBuiltIn (mkEditorTemplate "vscode" "VS Code" "Visual Studio Code" "code" true) false in
  let B := ofBuiltIn (mkEditorTemplate "zed" "Zed" "Zed" "zed" true) true in
  let file := Some (TFile "note.md") in
  addEditorMenuItems abSettings [] file =
    [ mkMenuItem "Open in VS Code" "code" (Some (OpenInEditorClick A file)) None;
      mkMenuItem "Open in External Editor" "code" None
        (Some [ mkMenuItem "Zed" "code" (Some (OpenInEditorClick B file)) None ]) ].
Proof.
  intros A B file.
  destruct (addEditorMenuItems_contributes abSettings [] file) as (_ & HAB & _).
  apply (HAB A B); [reflexivity | reflexivity |].
  left. vm_compute. reflexivity.
Defined.

(** ** Multi-file selections *)

Lemma allEntries_contributed s file item :
  item ∈ allEntries (addEditorMenuItems s [] file) →
  (∃ e, e ∈ getEnabledEditors s ∧ grouped e = false ∧ item = topEntry file e) ∨
  (∃ e, e ∈ getEnabledEditors s ∧ grouped e = true ∧ item = subEntry file e) ∨
  item = parentEntry file (List.filter grouped (getEnabledEditors s)).
Proof.
  rewrite addEditorMenuItems_shape. cbn [app]. unfold allEntries.
  set (eds := getEnabledEditors s).
  assert (∀ l : list EditorConfig,
    flat_map (λ item, default [] (submenu item)) (map (topEntry file) l) = []) as Htop.
  { induction l as [|x l IH]; [done |]. cbn. exact IH. }
  rewrite flat_map_app, Htop. cbn [app].
  rewrite !elem_of_app. intros [[Hin | Hin] | Hin].
  - apply list_elem_of_fmap in Hin as (e & -> & He).
    apply list_elem_of_In, filter_In in He as [He Hg].
    left. exists e. rewrite list_elem_of_In.
    by destruct (grouped e).
  - destruct (existsb grouped eds); [| by apply not_elem_of_nil in Hin].
    apply list_elem_of_singleton in Hin. by right; right.
  - destruct (existsb grouped eds); [| by apply not_elem_of_nil in Hin].
    cbn in Hin. rewrite app_nil_r in Hin.
    apply list_elem_of_fmap in Hin as (e & -> & He).
    apply list_elem_of_In, filter_In in He as [He Hg].
    right; left. exists e. by rewrite list_elem_of_In.
Qed.

Lemma filter_existsb_false {A} (f : A → bool) (l : list A) :
  existsb f l = false → List.filter f l = [].
Proof.
  induction l as [|x l IH]; [done |]. cbn [existsb List.filter].
  intros [Hx Hl]%orb_false_iff. rewrite Hx. by apply IH.
Qed.

(** The click handlers of a contribution, top-level entries first and the
    submenu's after them. *)
Lemma onClick_allEntries s file :
  omap onClick (allEntries (addEditorMenuItems s [] file)) =
    map (λ e, OpenInEditorClick e file)
        (List.filter (λ e, negb (grouped e)) (getEnabledEditors s)
         ++ List.filter grouped (getEnabledEditors s))%list.
Proof.
  rewrite addEditorMenuItems_shape. cbn [app]. unfold allEntries.
  set (eds := getEnabledEditors s).
  assert (∀ l : list EditorConfig,
    flat_map (λ item, default [] (submenu item)) (map (topEntry file) l) = []) as Hflat.
  { induction l as [|x l IH]; [done |]. cbn. exact IH. }
  assert (∀ l : list EditorConfig,
    omap onClick (map (topEntry file) l) = map (λ e, OpenInEditorClick e file) l) as Htop.
  { induction l as [|x l IH]; [done |]. cbn. by rewrite IH. }
  assert (∀ l : list EditorConfig,
    omap onClick (map (subEntry file) l) = map (λ e, OpenInEditorClick e file) l) as Hsub.
  { induction l as [|x l IH]; [done |]. cbn. by rewrite IH. }
  rewrite flat_map_app, Hflat, !omap_app, Htop, map_app. cbn [app].
  destruct (existsb grouped eds) eqn:Hex.
  - cbn. by rewrite !app_nil_r, Hsub.
  - rewrite (filter_existsb_false grouped eds Hex). cbn. by rewrite !app_nil_r.
Qed.

(** C10: for a non-empty selection [f :: rest] the files-menu handler
    contributes exactly what the single-file handler contributes for [f];
    every click handler among the contributed entries captured [f], so
    activating an entry opens [f] alone, and [rest] has no influence. Every
    enabled editor has such an entry: the click handlers contributed are
    exactly one per enabled editor, each capturing that editor and [f]. An
    empty selection contributes nothing. *)
Theorem onFilesMenu_first_file_only
    (s : PluginSettings) (menu : Menu) (f : TAbstractFile) (rest : list TAbstractFile) :
  onFilesMenu s menu (f :: rest) = onFileMenu s menu (Some f) ∧
  onFilesMenu s menu (f :: rest) = onFilesMenu s menu [f] ∧
  (∀ item editor file,
     item ∈ allEntries (onFilesMenu s [] (f :: rest)) →
     onClick item = Some (OpenInEditorClick editor file) →
     file = Some f ∧
     editor ∈ getEnabledEditors s ∧
     ∀ host, activate host item = openInEditor host editor (Some f)) ∧
  onFilesMenu s menu [] = menu ∧
  omap onClick (allEntries (onFilesMenu s [] (f :: rest))) =
    map (λ e, OpenInEditorClick e (Some f))
        (List.filter (λ e, negb (grouped e)) (getEnabledEditors s)
         ++ List.filter grouped (getEnabledEditors s))%list ∧
  (∀ editor, editor ∈ getEnabledEditors s →
     ∃ item,
       item ∈ allEntries (onFilesMenu s [] (f :: rest)) ∧
       onClick item = Some (OpenInEditorClick editor (Some f)) ∧
       ∀ host, activate host item = openInEditor host editor (Some f)) ∧
  length (omap onClick (allEntries (onFilesMenu s [] (f :: rest)))) =
    length (getEnabledEditors s).
Proof.
  split; [done |]. split; [done |].
  change (onFilesMenu s [] (f :: rest)) with (addEditorMenuItems s [] (Some f)).
  split; [| split; [done |]].
  - intros item editor file Hin Hclick.
    assert (file = Some f ∧ editor ∈ getEnabledEditors s) as [-> Hed].
    { apply allEntries_contributed in Hin
        as [(e & He & _ & ->) | [(e & He & _ & ->) | ->]];
        cbn in Hclick; by simplify_eq. }
    split; [done |]. split; [done |].
    intros host. unfold activate. by rewrite Hclick.
  - pose proof (onClick_allEntries s (Some f)) as Hclicks.
    split; [exact Hclicks |]. split.
    + intros editor Hed.
      assert (OpenInEditorClick editor (Some f)
              ∈ omap onClick (allEntries (addEditorMenuItems s [] (Some f)))) as Hin.
      { rewrite Hclicks. apply list_elem_of_fmap. exists editor. split; [done |].
        apply elem_of_app. rewrite !list_elem_of_In, !filter_In, <- !list_elem_of_In.
        destruct (grouped editor); [right | left]; done. }
      apply list_elem_of_omap in Hin as (item & Hitem & Hclick).
      exists item. split; [done |]. split; [done |].
      intros host. unfold activate. by rewrite Hclick.
    + rewrite Hclicks, length_map, length_app. clear Hclicks.
      induction (getEnabledEditors s) as [|e l IH]; [done |].
      cbn [List.filter length]. destruct (grouped e); cbn [negb length]; lia.
Qed.

Lemma onFilesMenu_first_file_only_witness :
  let files := [TFile "a.md"; TFile "b.md"; TFolder "notes"] in
  let entries := allEntries (onFilesMenu sampleSettings [] files) in
  omap onClick entries =
    [ OpenInEditorClick
        {| id := "vscode"; name := "VS Code"; appName := "Visual Studio Code";
           command := "code"; enabled := true; grouped := false; isBuiltIn := true |}
        (Some (TFile "a.md"));
      OpenInEditorClick
        {| id := "custom-1700000000000"; name := "Sublime"; appName := "Sublime Text";
           command := "subl"; enabled := true; grouped := false; isBuiltIn := false |}
        (Some (TFile "a.md"));
      OpenInEditorClick
        {| id := "zed"; name := "Zed"; appName := "Zed";
           command := "zed"; enabled := true; grouped := true; isBuiltIn := true |}
        (Some (TFile "a.md")) ] ∧
  map title entries =
    ["Open in VS Code"; "Open in Sublime"; "Open in External Editor"; "Zed"] ∧
  map (λ item, execs (activate (vaultHost "linux" (Exited 0)) item []).2) entries =
    [ ["code " +:+ String "034" ("/vault/a.md" +:+ String "034" "")];
      ["subl " +:+ String "034" ("/vault/a.md" +:+ String "034" "")];
      [];
      ["zed " +:+ String "034" ("/vault/a.md" +:+ String "034" "")] ].
Proof.
  intros files entries.
  destruct (onFilesMenu_first_file_only sampleSettings [] (TFile "a.md")
              [TFile "b.md"; TFolder "notes"]) as (_ & _ & _ & _ & Hclicks & _).
  split; [| split].
  - unfold entries, files. rewrite Hclicks. vm_compute. reflexivity.
  - vm_compute. reflexivity.
  - vm_compute. reflexivity.
Defined.

(** ** Launch dispatcher *)

Lemma resolvePath_run host file tr :
  resolvePath host file tr =
    match fullPathOf host file with
    | Some p => (Returned p, tr)
    | None => (Thrown HostError, tr)
    end.
Proof.
  unfold resolvePath, fullPathOf, adapter_getFullPath.
  destruct file as [[p | p]|]; cbn [path]; try done;
    by destruct (getFullPath host p).
Qed.

Lemma openInEditor_run host editor file tr :
  openInEditor host editor file tr =
    (Returned (), (tr ++ launchEvents host editor file)%list).
Proof.
  unfold openInEditor, try_catch, launchEvents.
  unfold mbind at 1, M_bind at 1. rewrite resolvePath_run.
  destruct (fullPathOf host file) as [p|].
  - unfold execAsync, Notice, console_error, emit, throw, mbind, M_bind, mret, M_ret.
    destruct (exec_succeeds (runProcess host (buildCommand host editor p)));
      by rewrite <- !app_assoc.
  - unfold Notice, console_error, emit, mbind, M_bind.
    by rewrite <- !app_assoc.
Qed.

Lemma successMsg_ne_failureMsg editor : successMsg editor ≠ failureMsg editor.
Proof. unfold successMsg, failureMsg. cbn. discriminate. Qed.

(** C1: whatever the target and however the launch ends, [openInEditor]
    returns normally (nothing is thrown to the caller) and shows exactly one
    notice: the success notice naming the editor when the process exits with
    code 0, the failure notice naming the editor (and no success notice) when
    it exits non-zero, is not found or cannot be spawned, or when the path
    cannot be resolved. *)
Theorem openInEditor_notifies_once
    (host : Host) (editor : EditorConfig) (file : option TAbstractFile)
    (tr : list Event) :
  let success := "Opening in " +:+ name editor in
  let failure := "Failed to open in " +:+ name editor +:+ ". Make sure "
                 +:+ name editor +:+ " is installed." in
  ∃ new,
    openInEditor host editor file tr = (Returned (), (tr ++ new)%list) ∧
    success ≠ failure ∧
    match fullPathOf host file with
    | Some p =>
        execs new = [buildCommand host editor p] ∧
        match runProcess host (buildCommand host editor p) with
        | Exited 0 => notices new = [success]
        | Exited _ | CommandNotFound | SpawnError => notices new = [failure]
        end
    | None => execs new = [] ∧ notices new = [failure]
    end.
Proof.
  intros success failure. exists (launchEvents host editor file).
  split; [apply openInEditor_run |].
  split; [apply successMsg_ne_failureMsg |].
  unfold launchEvents.
  destruct (fullPathOf host file) as [p|]; [| done].
  cbv zeta.
  destruct (runProcess host (buildCommand host editor p)) as [code | |];
    [| done | done].
  cbn [exec_succeeds]. destruct code as [|c|c]; done.
Qed.

(** A launch whose shell reports "command not found" (exit code 127): one
    command, the error logged, the failure notice, normal return. *)
Lemma openInEditor_notifies_once_witness :
  ∃ new,
    openInEditor (vaultHost "linux" (Exited 127)) vscode (Some (TFile "note.md")) [] =
      (Returned (), new) ∧
    execs new = ["code " +:+ String "034" ("/vault/note.md" +:+ String "034" "")] ∧
    notices new = ["Failed to open in VS Code. Make sure VS Code is installed."].
Proof.
  destruct (openInEditor_notifies_once
              (vaultHost "linux" (Exited 127)) vscode (Some (TFile "note.md")) [])
    as (new & Hrun & _ & Hexecs & Hnotices).
  exists new. split; [exact Hrun |]. split; [exact Hexecs | exact Hnotices].
Defined.

Lemma execs_app tr1 tr2 : execs (tr1 ++ tr2) = (execs tr1 ++ execs tr2)%list.
Proof. unfold execs. apply omap_app. Qed.

Lemma execs_launchEvents host editor file p :
  fullPathOf host file = Some p →
  execs (launchEvents host editor file) = [buildCommand host editor p].
Proof.
  intros Hp. unfold launchEvents. rewrite Hp. cbv zeta.
  by destruct (exec_succeeds _).
Qed.

(** C5: on macOS, for an editor whose application name is Zed and a target
    resolved to /vault/note.md, the one command executed is
    open -a followed by the quoted application name and the quoted path. *)
Theorem openInEditor_command_macos
    (host : Host) (editor : EditorConfig) (file : option TAbstractFile)
    (tr : list Event) :
  platform host = "darwin" →
  appName editor = "Zed" →
  fullPathOf host file = Some "/vault/note.md" →
  execs (openInEditor host editor file tr).2 =
    (execs tr ++
     [ "open -a " +:+ String "034" ("Zed" +:+ String "034" (" " +:+
         String "034" ("/vault/note.md" +:+ String "034" ""))) ])%list.
Proof.
  intros Hpf Happ Hp. rewrite openInEditor_run. cbn [snd].
  rewrite execs_app, (execs_launchEvents _ _ _ _ Hp).
  unfold buildCommand. rewrite Hpf, Happ. reflexivity.
Qed.

Lemma openInEditor_command_macos_witness :
  execs (openInEditor (vaultHost "darwin" (Exited 0)) zed (Some (TFile "note.md")) []).2 =
    [ "open -a " +:+ String "034" ("Zed" +:+ String "034" (" " +:+
        String "034" ("/vault/note.md" +:+ String "034" ""))) ].
Proof.
  apply (openInEditor_command_macos
           (vaultHost "darwin" (Exited 0)) zed (Some (TFile "note.md")) []);
    reflexivity.
Defined.

(** C2, as the code has it: for an editor whose command token is code and a
    target resolved to /vault/note.md, the one command executed off macOS is
    the token followed by the quoted path on Linux/Unix, and the quoted token
    followed by the quoted path on Windows. *)
Theorem openInEditor_command_windows_linux
    (host : Host) (editor : EditorConfig) (file : option TAbstractFile)
    (tr : list Event) :
  platform host ≠ "darwin" →
  command editor = "code" →
  fullPathOf host file = Some "/vault/note.md" →
  execs (openInEditor host editor file tr).2 =
    (execs tr ++
     [ if String.eqb (platform host) "win32"
       then String "034" ("code" +:+ String "034" (" " +:+
              String "034" ("/vault/note.md" +:+ String "034" "")))
       else "code " +:+ String "034" ("/vault/note.md" +:+ String "034" "") ])%list.
Proof.
  intros Hpf Hcmd Hp. rewrite openInEditor_run. cbn [snd].
  rewrite execs_app, (execs_launchEvents _ _ _ _ Hp).
  unfold buildCommand. rewrite Hcmd.
  apply String.eqb_neq in Hpf. rewrite Hpf.
  by destruct (String.eqb (platform host) "win32").
Qed.

Lemma openInEditor_command_windows_linux_witness :
  execs (openInEditor (vaultHost "linux" (Exited 0)) vscode (Some (TFile "note.md")) []).2 =
    [ "code " +:+ String "034" ("/vault/note.md" +:+ String "034" "") ].
Proof.
  apply (openInEditor_command_windows_linux
           (vaultHost "linux" (Exited 0)) vscode (Some (TFile "note.md")) []);
    [discriminate | reflexivity | reflexivity].
Defined.

(** C2 as stated fails on Windows: for command token code and resolved path
    /vault/note.md the command executed there starts with a quote, so it is
    not the unquoted token followed by the quoted path. *)
Lemma openInEditor_win32_quotes_command :
  command vscode = "code" ∧
  fullPathOf (vaultHost "win32" (Exited 0)) (Some (TFile "note.md")) = Some "/vault/note.md" ∧
  execs (openInEditor (vaultHost "win32" (Exited 0)) vscode (Some (TFile "note.md")) []).2 ≠
    [ "code " +:+ String "034" ("/vault/note.md" +:+ String "034" "") ].
Proof. split; [reflexivity |]. split; [reflexivity |]. vm_compute. discriminate. Qed.

(** ** Settings UI: identifiers of custom editors *)

#[global] Instance customId_inj : Inj (=) (=) customId.
Proof.
  intros t1 t2 Heq. unfold customId in Heq.
  by apply (inj (String.app "custom-")), (inj pretty) in Heq.
Qed.

Lemma createdIds_addTimes ops : createdIds ops = map customId (addTimes ops).
Proof.
  unfold createdIds, addTimes.
  induction ops as [|[now | index] ops IH]; cbn; [done | by rewrite IH | done].
Qed.

Lemma customIds_addCustomEditor now s :
  customIds (addCustomEditor now s) = (customIds s ++ [customId now])%list.
Proof. unfold customIds, addCustomEditor. cbn [customEditors]. by rewrite map_app. Qed.

Lemma customIds_deleteCustomEditor index s :
  sublist (customIds (deleteCustomEditor index s)) (customIds s).
Proof.
  unfold customIds, deleteCustomEditor. cbn [customEditors].
  apply (fmap_sublist c_id), sublist_delete.
Qed.

(** Whatever is in the list was there at the start or was created since. *)
Lemma customIds_uiRun ops s :
  sublist (customIds (uiRun s ops)) (customIds s ++ createdIds ops)%list.
Proof.
  revert s. induction ops as [|[now | index] ops IH]; intros s.
  - cbn. by rewrite app_nil_r.
  - etrans; [apply (IH (addCustomEditor now s)) |].
    rewrite customIds_addCustomEditor, <- app_assoc. done.
  - etrans; [apply (IH (deleteCustomEditor index s)) |].
    apply sublist_app; [apply customIds_deleteCustomEditor | done].
Qed.

(** C8, as the code has it: an added custom editor gets the id custom-N for
    the clock reading N at the click. If the add clicks of a sequence of
    operations happen at pairwise distinct clock readings, and the list
    started with pairwise distinct ids none of which is generated later, then
    the ids created are pairwise distinct and the custom-editor list holds
    pairwise distinct ids after every operation. *)
Theorem customIds_distinct_for_distinct_clock (s : PluginSettings) (ops : list UiOp) :
  NoDup (customIds s) →
  NoDup (addTimes ops) →
  (∀ now, now ∈ addTimes ops → customId now ∉ customIds s) →
  createdIds ops = map customId (addTimes ops) ∧
  NoDup (createdIds ops) ∧
  ∀ pre, pre `prefix_of` ops → NoDup (customIds (uiRun s pre)).
Proof.
  intros Hs Htimes Hfresh.
  split; [apply createdIds_addTimes |].
  assert (NoDup (customIds s ++ createdIds ops)%list) as Hall.
  { apply NoDup_app. split; [done |]. split.
    - intros x Hx Hcreated. rewrite createdIds_addTimes in Hcreated.
      apply list_elem_of_fmap in Hcreated as (now & -> & Hnow).
      by apply (Hfresh now).
    - rewrite createdIds_addTimes. by apply (NoDup_fmap_2 customId). }
  split.
  - by apply NoDup_app in Hall as (_ & _ & ?).
  - intros pre [post ->].
    refine (sublist_NoDup _ _ _ (customIds_uiRun pre s)).
    refine (sublist_NoDup _ _ Hall _).
    apply sublist_app; [done |].
    unfold createdIds. rewrite omap_app. by apply sublist_inserts_r.
Qed.

Lemma customIds_distinct_for_distinct_clock_witness :
  let ops := [AddCustom 1700000000000; DeleteCustom 0; AddCustom 1700000000001] in
  createdIds ops = map customId (addTimes ops) ∧
  NoDup (createdIds ops) ∧
  ∀ pre, pre `prefix_of` ops → NoDup (customIds (uiRun DEFAULT_SETTINGS pre)).
Proof.
  intros ops. apply (customIds_distinct_for_distinct_clock DEFAULT_SETTINGS ops).
  - apply NoDup_nil_2.
  - apply (bool_decide_unpack (NoDup (addTimes ops))). vm_compute. exact I.
  - intros now _. apply not_elem_of_nil.
Defined.

(** C8 as stated fails: two add clicks at the same clock reading create two
    custom editors with the same id, and an id is handed out again after its
    editor was deleted. *)
Lemma addCustomEditor_same_clock_collides :
  customIds (uiRun DEFAULT_SETTINGS [AddCustom 1700000000000; AddCustom 1700000000000]) =
    ["custom-1700000000000"; "custom-1700000000000"] ∧
  createdIds [AddCustom 1700000000000; DeleteCustom 0; AddCustom 1700000000000] =
    ["custom-1700000000000"; "custom-1700000000000"] ∧
  ¬ NoDup (customIds (uiRun DEFAULT_SETTINGS
                        [AddCustom 1700000000000; AddCustom 1700000000000])).
Proof.
  split; [vm_compute; reflexivity |]. split; [vm_compute; reflexivity |].
  apply (bool_decide_unpack (¬ NoDup _)). vm_compute. exact I.
Qed.

(** * Further properties *)

(** ** Deleting a custom editor *)

(** X1: deleting the custom editor at an index in range removes exactly that
    entry: earlier entries keep their place, later ones move up by one, the
    list is one shorter and the built-in settings are untouched; an index
    past the end changes nothing. *)
Theorem deleteCustomEditor_removes_index (index : nat) (s : PluginSettings) :
  builtInEditors (deleteCustomEditor index s) = builtInEditors s ∧
  (∀ j : nat, (j < index)%nat →
        customEditors (deleteCustomEditor index s) !! j = customEditors s !! j) ∧
  (∀ j : nat, (index ≤ j)%nat →
        customEditors (deleteCustomEditor index s) !! j = customEditors s !! S j) ∧
  ((index < length (customEditors s))%nat →
   length (customEditors (deleteCustomEditor index s)) =
     (length (customEditors s) - 1)%nat) ∧
  ((length (customEditors s) ≤ index)%nat → deleteCustomEditor index s = s).
Proof.
  unfold deleteCustomEditor. cbn [builtInEditors customEditors].
  split; [done |]. split; [| split; [| split]].
  - intros j Hj. by apply list_lookup_delete_lt.
  - intros j Hj. by apply list_lookup_delete_ge.
  - intros Hlt. apply length_delete. by apply lookup_lt_is_Some.
  - intros Hge. destruct s as [bs cs]. cbn [builtInEditors customEditors] in *.
    f_equal. apply list_eq. intros j.
    destruct (decide (j < index)) as [Hj | Hj].
    + by rewrite list_lookup_delete_lt.
    + rewrite list_lookup_delete_ge by lia.
      rewrite !lookup_ge_None_2 by lia. done.
Qed.

Lemma deleteCustomEditor_removes_index_witness :
  customEditors (deleteCustomEditor 0 sampleSettings) =
    [mkCustomEditorConfig "custom-1700000000001" "Idea" "IntelliJ IDEA" "idea" false true] ∧
  deleteCustomEditor 2 sampleSettings = sampleSettings.
Proof.
  destruct (deleteCustomEditor_removes_index 2 sampleSettings) as (_ & _ & _ & _ & Hge).
  split; [reflexivity |]. apply Hge. cbn. lia.
Defined.

(** ** Saving and loading *)

Lemma foldl_backfill_complete s l :
  Forall (λ e, is_Some (builtInEditors s !! t_id e)) l → foldl backfill s l = s.
Proof.
  induction 1 as [|e l [v Hv] _ IH]; cbn [foldl]; [done |].
  unfold backfill at 2. by rewrite Hv.
Qed.

Lemma loadSettings_complete data : complete (loadSettings data).
Proof.
  apply Forall_forall. intros e He. rewrite loadSettings_lookup.
  destruct (persistedBuiltIns data !! t_id e); [by eexists |].
  rewrite bool_decide_eq_true_2; [by eexists |].
  unfold builtInIds. apply list_elem_of_fmap. by exists e.
Qed.

(** Loading a stored object that has both keys and an entry for every
    built-in editor takes it over as it is. *)
Lemma loadSettings_stored_complete bs cs :
  Forall (λ e, is_Some (bs !! t_id e)) BUILT_IN_EDITORS →
  loadSettings (Some (mkPersistedData (Some bs) (Some cs))) = mkPluginSettings bs cs.
Proof.
  intros Hbs. unfold loadSettings, assignSettings.
  cbn [p_builtInEditors p_customEditors default].
  by apply foldl_backfill_complete.
Qed.

(** X2: settings in which every built-in editor has an entry survive a
    save followed by a load unchanged. *)
Theorem save_load_roundtrip (s : PluginSettings) :
  complete s → loadSettings (Some (saveData s)) = s.
Proof.
  intros Hs. destruct s as [bs cs]. unfold saveData.
  cbn [builtInEditors customEditors].
  apply loadSettings_stored_complete. exact Hs.
Qed.

Lemma save_load_roundtrip_witness :
  loadSettings (Some (saveData (loadSettings (Some (saveData sampleSettings))))) =
    loadSettings (Some (saveData sampleSettings)).
Proof.
  apply (save_load_roundtrip (loadSettings (Some (saveData sampleSettings)))).
  apply (bool_decide_unpack (complete _)). vm_compute. exact I.
Defined.

(** X3: loading is idempotent across a save: whatever was on disk, saving
    the loaded settings and loading again yields the same settings, with the
    custom editors exactly as persisted (none if the key was absent). *)
Theorem loadSettings_save_idempotent (data : option PersistedData) :
  loadSettings (Some (saveData (loadSettings data))) = loadSettings data ∧
  customEditors (loadSettings data) =
    match data with
    | Some d => default [] (p_customEditors d)
    | None => []
    end.
Proof.
  split.
  - pose proof (loadSettings_complete data) as Hc.
    destruct (loadSettings data) as [bs cs]. by apply loadSettings_stored_complete.
  - unfold loadSettings. rewrite backfill_customEditors.
    by destruct data as [[bs [cs|]]|].
Qed.

(** ** Back-filling and the enabled editors *)

Lemma pushBuiltIn_backfill s b acc e :
  pushBuiltIn (backfill s b) acc e = pushBuiltIn s acc e.
Proof.
  unfold backfill. destruct (builtInEditors s !! t_id b) eqn:Hb; [done |].
  apply (pushBuiltIn_missing_as_disabled s (t_id b) false acc e Hb).
Qed.

Lemma getEnabledEditors_backfill s l :
  getEnabledEditors (foldl backfill s l) = getEnabledEditors s.
Proof.
  revert s. induction l as [|b l IH]; intros s; cbn [foldl]; [done |].
  rewrite IH. unfold getEnabledEditors.
  assert (customEditors (backfill s b) = customEditors s) as ->.
  { unfold backfill. by destruct (builtInEditors s !! t_id b). }
  f_equal. apply foldl_step_ext. intros acc e. apply pushBuiltIn_backfill.
Qed.

(** X4: back-filling on load never enables anything: the enabled editors of
    the loaded settings are those of the merged object before back-filling.
    On a first activation (nothing stored) no editor is enabled, so no menu
    entry and no command is contributed. *)
Theorem loadSettings_enables_nothing
    (data : option PersistedData) (menu : Menu) (file : option TAbstractFile) :
  getEnabledEditors (loadSettings data) =
    getEnabledEditors (assignSettings DEFAULT_SETTINGS data) ∧
  getEnabledEditors (loadSettings None) = [] ∧
  addEditorMenuItems (loadSettings None) menu file = menu ∧
  registerEditorCommands (loadSettings None) = [].
Proof.
  split; [apply getEnabledEditors_backfill |].
  assert (getEnabledEditors (loadSettings None) = []) as Hnone
    by (vm_compute; reflexivity).
  split; [exact Hnone |]. split.
  - unfold addEditorMenuItems. by rewrite Hnone.
  - unfold registerEditorCommands. by rewrite Hnone.
Qed.

(** ** Rendering the settings tab *)

Lemma mapM_createBuiltInEditorSetting s l :
  Forall (λ e, is_Some (builtInEditors s !! t_id e)) l →
  mapM (createBuiltInEditorSetting s) l = Some (map (builtInRow s) l).
Proof.
  induction 1 as [|e l [st Hst] _ IH]; [done |].
  cbn [mapM map]. rewrite IH.
  unfold createBuiltInEditorSetting, builtInRow, builtInEnabled, builtInGrouped.
  by rewrite Hst.
Qed.

Lemma mapM_createCustomEditorSetting s l k :
  drop k (customEditors s) = l →
  mapM (createCustomEditorSetting s) (seq k (length l)) =
    Some (imap (λ i, customRow (k + i)) l).
Proof.
  revert k. induction l as [|c l IH]; intros k Hdrop; [done |].
  assert (customEditors s !! k = Some c) as Hk.
  { rewrite <- (Nat.add_0_r k), <- lookup_drop, Hdrop. done. }
  assert (drop (S k) (customEditors s) = l) as Hdrop'.
  { rewrite (drop_S _ _ _ Hk) in Hdrop. by injection Hdrop. }
  cbn [length seq mapM]. rewrite (IH (S k) Hdrop').
  unfold createCustomEditorSetting at 1. rewrite Hk. cbn.
  rewrite Nat.add_0_r. do 2 f_equal.
  apply imap_ext. intros i x _. cbn. f_equal. lia.
Qed.

Lemma display_complete s :
  complete s →
  display s = Some (map (builtInRow s) BUILT_IN_EDITORS,
                    imap customRow (customEditors s)).
Proof.
  intros Hs. unfold display.
  rewrite (mapM_createBuiltInEditorSetting s _ Hs). cbn [mbind option_bind].
  by rewrite (mapM_createCustomEditorSetting s (customEditors s) 0 eq_refl).
Qed.

(** X5: rendering the settings tab succeeds exactly when every built-in
    editor id has a settings entry (the unguarded read of [settings.enabled]
    throws otherwise); in particular it succeeds on whatever [loadSettings]
    produced. *)
Theorem display_succeeds_iff_complete (s : PluginSettings) :
  (is_Some (display s) ↔ complete s) ∧
  (∀ data, is_Some (display (loadSettings data))).
Proof.
  split.
  - split.
    + intros [v Hv]. unfold display in Hv.
      destruct (mapM (createBuiltInEditorSetting s) BUILT_IN_EDITORS) as [bs|] eqn:Hbs;
        [| done].
      assert (is_Some (mapM (createBuiltInEditorSetting s) BUILT_IN_EDITORS)) as Hsome
        by (by eexists).
      apply mapM_is_Some_1 in Hsome.
      eapply Forall_impl; [exact Hsome |].
      intros e [r Hr]. unfold createBuiltInEditorSetting in Hr. cbn in Hr.
      destruct (builtInEditors s !! t_id e); [by eexists | done].
    + intros Hs. rewrite (display_complete s Hs). by eexists.
  - intros data. rewrite (display_complete _ (loadSettings_complete data)). by eexists.
Qed.

(** X6: when the settings are complete the rendered tab has one row per
    built-in editor in declaration order, headed by the editor's name, and
    one row per custom editor in stored order whose delete button captured
    the editor's position; in every row the group toggle is disabled exactly
    when the enable toggle is off. *)
Theorem display_rows (s : PluginSettings) :
  complete s →
  ∃ builtIns customs,
    display s = Some (builtIns, customs) ∧
    map br_header builtIns = map t_name BUILT_IN_EDITORS ∧
    map br_enable builtIns = map (builtInEnabled s) BUILT_IN_EDITORS ∧
    map br_group builtIns = map (builtInGrouped s) BUILT_IN_EDITORS ∧
    map cr_index customs = seq 0 (length (customEditors s)) ∧
    map cr_name customs = map c_name (customEditors s) ∧
    map cr_enable customs = map c_enabled (customEditors s) ∧
    map cr_group customs = map c_grouped (customEditors s) ∧
    Forall (λ r, br_groupDisabled r = negb (br_enable r)) builtIns ∧
    Forall (λ r, cr_groupDisabled r = negb (cr_enable r)) customs.
Proof.
  intros Hs. eexists _, _. split; [apply (display_complete s Hs) |].
  rewrite !map_map. cbn [br_header br_enable br_group builtInRow].
  split; [done |]. split; [done |]. split; [done |].
  assert (∀ (l : list CustomEditorConfig) k,
            map cr_index (imap (λ i, customRow (k + i)) l) = seq k (length l)) as Hidx.
  { induction l as [|c l IH]; intros k; [done |].
    rewrite imap_cons. cbn [map length seq cr_index customRow].
    rewrite Nat.add_0_r. f_equal. rewrite <- IH. f_equal.
    apply imap_ext. intros i x _. cbn. f_equal. lia. }
  assert (∀ (A : Type) (g : CustomRow → A) (h : CustomEditorConfig → A),
            (∀ i c, g (customRow i c) = h c) →
            ∀ l : list CustomEditorConfig, map g (imap customRow l) = map h l) as Hmap.
  { intros A g h Hgh l. change (map g (imap customRow l)) with (g <$> imap customRow l).
    rewrite fmap_imap. rewrite (imap_ext _ (const h) l); [| by intros; apply Hgh].
    by rewrite imap_const. }
  split; [apply (Hidx _ 0) |].
  split; [by apply Hmap |]. split; [by apply Hmap |]. split; [by apply Hmap |].
  split.
  - apply Forall_forall. intros r Hr. by apply list_elem_of_fmap in Hr as (e & -> & _).
  - apply Forall_forall. intros r Hr.
    apply elem_of_lookup_imap in Hr as (i & c & -> & _). done.
Qed.

Lemma display_rows_witness :
  ∃ builtIns customs,
    display (loadSettings (Some (saveData sampleSettings))) = Some (builtIns, customs) ∧
    map br_header builtIns = ["VS Code"; "Cursor"; "Zed"; "Windsurf"; "Antygravity"] ∧
    map br_enable builtIns = [true; false; true; false; false] ∧
    map cr_index customs = [0; 1]%nat.
Proof.
  destruct (display_rows (loadSettings (Some (saveData sampleSettings))))
    as (bs & cs & Hd & Hh & He & _ & Hi & _).
  - apply (bool_decide_unpack (complete _)). vm_compute. exact I.
  - exists bs, cs. split; [exact Hd |]. split; [exact Hh |].
    split; [rewrite He; vm_compute; reflexivity | exact Hi].
Defined.

(** ** Toggles of a built-in editor *)

(** The assignment of the enable toggle, on its own: it keeps the grouped
    flag and the custom editors, makes the editor enabled exactly when the
    value is true, and leaves every other descriptor in or out of the enabled
    list as it was. *)
Lemma setBuiltInEnabled_assignment
    (s : PluginSettings) (b : EditorTemplate) (st : BuiltInSetting) (value : bool) :
  b ∈ BUILT_IN_EDITORS →
  builtInEditors s !! t_id b = Some st →
  ∃ s',
    setBuiltInEnabled (t_id b) value s = Some s' ∧
    builtInEditors s' !! t_id b = Some (mkBuiltInSetting value (s_grouped st)) ∧
    customEditors s' = customEditors s ∧
    (ofBuiltIn b (s_grouped st) ∈ getEnabledEditors s' ↔ value = true) ∧
    (∀ e, isBuiltIn e = false ∨ id e ≠ t_id b →
          (e ∈ getEnabledEditors s' ↔ e ∈ getEnabledEditors s)).
Proof.
  intros Hb Hst. unfold setBuiltInEnabled. rewrite Hst.
  eexists. split; [reflexivity |]. cbn [builtInEditors customEditors].
  split; [apply lookup_insert_eq |]. split; [done |].
  assert (t_isBuiltIn b = true) as Hbi by (by apply BUILT_IN_EDITORS_isBuiltIn).
  split.
  - rewrite elem_of_getEnabledEditors. cbn [builtInEditors customEditors]. split.
    + intros [(b' & st' & _ & Hst' & Hen & Heq) | (c & _ & _ & Heq)].
      * assert (t_id b' = t_id b) as Hid by (by injection Heq).
        rewrite Hid, lookup_insert_eq in Hst'. by simplify_eq.
      * unfold ofBuiltIn, ofCustom in Heq. congruence.
    + intros ->. left. exists b, (mkBuiltInSetting true (s_grouped st)).
      by rewrite lookup_insert_eq.
  - intros e He. rewrite !elem_of_getEnabledEditors.
    cbn [builtInEditors customEditors].
    assert (∀ b', b' ∈ BUILT_IN_EDITORS → e = ofBuiltIn b' (builtInGrouped s b') ∨ True →
                  ∀ g, e = ofBuiltIn b' g → t_id b ≠ t_id b') as Hne.
    { intros b' Hb' _ g ->. destruct He as [He | He].
      - cbn in He. apply BUILT_IN_EDITORS_isBuiltIn in Hb'. congruence.
      - cbn in He. congruence. }
    split.
    + intros [(b' & st' & Hb' & Hst' & Hen & Heq) | Hc]; [| by right].
      left. exists b', st'. split; [done |].
      rewrite lookup_insert_ne in Hst'; [done |].
      by apply (Hne b' Hb' (or_intror I) (s_grouped st')).
    + intros [(b' & st' & Hb' & Hst' & Hen & Heq) | Hc]; [| by right].
      left. exists b', st'. split; [done |].
      rewrite lookup_insert_ne; [done |].
      by apply (Hne b' Hb' (or_intror I) (s_grouped st')).
Qed.

Lemma builtInEnabled_setBuiltInGrouped s k st value e :
  builtInEditors s !! k = Some st →
  builtInEnabled
    {| builtInEditors := <[k := mkBuiltInSetting (s_enabled st) value]> (builtInEditors s);
       customEditors := customEditors s |} e = builtInEnabled s e.
Proof.
  intros Hst. unfold builtInEnabled. cbn [builtInEditors].
  destruct (decide (k = t_id e)) as [-> | Hne].
  - by rewrite lookup_insert_eq, Hst.
  - by rewrite lookup_insert_ne.
Qed.

(** X8: switching the group toggle of a built-in editor that has an entry
    succeeds and changes nothing but that editor's grouped flag: the enabled
    editors are the same descriptors in the same order, with the flag of the
    toggled built-in editor replaced. *)
Theorem setBuiltInGrouped_effect
    (s : PluginSettings) (k : string) (st : BuiltInSetting) (value : bool) :
  builtInEditors s !! k = Some st →
  ∃ s',
    setBuiltInGrouped k value s = Some s' ∧
    builtInEditors s' !! k = Some (mkBuiltInSetting (s_enabled st) value) ∧
    customEditors s' = customEditors s ∧
    getEnabledEditors s' = map (regroup k value) (getEnabledEditors s) ∧
    map id (getEnabledEditors s') = map id (getEnabledEditors s).
Proof.
  intros Hst. unfold setBuiltInGrouped. rewrite Hst.
  eexists. split; [reflexivity |]. cbn [builtInEditors customEditors].
  split; [apply lookup_insert_eq |]. split; [done |].
  match goal with |- ?P ∧ _ => assert P as Heq end.
  { rewrite !getEnabledEditors_unfold. unfold listEnabledEditors_spec.
    rewrite map_app, !map_map.
    apply (f_equal2 app).
    - unfold enabledBuiltIns.
      rewrite (filter_ext _ (builtInEnabled s));
        [| intros e; by apply builtInEnabled_setBuiltInGrouped].
      apply map_ext_in. intros e He.
      apply filter_In in He as [He _]. apply list_elem_of_In in He.
      apply BUILT_IN_EDITORS_isBuiltIn in He.
      unfold regroup, builtInGrouped. cbn [builtInEditors isBuiltIn id ofBuiltIn].
      destruct (decide (k = t_id e)) as [-> | Hne].
      + rewrite lookup_insert_eq, Hst, bool_decide_eq_true_2 by done. done.
      + rewrite lookup_insert_ne by done.
        rewrite bool_decide_eq_false_2; [done | intros [_ ?]; done].
    - unfold enabledCustoms. cbn [customEditors].
      apply map_ext. intros c. unfold regroup.
      rewrite bool_decide_eq_false_2; [done | intros [? _]; done]. }
  split; [exact Heq |].
  rewrite Heq, map_map. apply map_ext. intros e.
  unfold regroup. by case_bool_decide.
Qed.

Lemma setBuiltInGrouped_effect_witness :
  ∃ s',
    setBuiltInGrouped "vscode" true sampleSettings = Some s' ∧
    map id (getEnabledEditors s') = ["vscode"; "zed"; "custom-1700000000000"] ∧
    map grouped (getEnabledEditors s') = [true; true; false].
Proof.
  destruct (setBuiltInGrouped_effect sampleSettings "vscode"
              (mkBuiltInSetting true false) true)
    as (s' & Hs' & _ & _ & Heq & Hids).
  - vm_compute. reflexivity.
  - exists s'. split; [exact Hs' |]. rewrite Hids, Heq.
    split; vm_compute; reflexivity.
Defined.

(** ** Editing, adding and deleting custom editors *)


(** X10: adding a custom editor appends one disabled entry and leaves the
    rest alone, so the enabled editors, the menu contribution and the
    commands are what they were. *)
Theorem addCustomEditor_enables_nothing
    (now : Z) (s : PluginSettings) (menu : Menu) (file : option TAbstractFile) :
  builtInEditors (addCustomEditor now s) = builtInEditors s ∧
  (∃ c, customEditors (addCustomEditor now s) = (customEditors s ++ [c])%list ∧
        c_enabled c = false ∧ c_grouped c = false ∧ c_id c = customId now) ∧
  getEnabledEditors (addCustomEditor now s) = getEnabledEditors s ∧
  addEditorMenuItems (addCustomEditor now s) menu file = addEditorMenuItems s menu file ∧
  registerEditorCommands (addCustomEditor now s) = registerEditorCommands s.
Proof.
  assert (getEnabledEditors (addCustomEditor now s) = getEnabledEditors s) as Heq.
  { rewrite !getEnabledEditors_unfold. unfold listEnabledEditors_spec. f_equal.
    unfold enabledCustoms, addCustomEditor. cbn [customEditors].
    rewrite List.filter_app. cbn. by rewrite app_nil_r. }
  split; [done |]. split; [by eexists |]. split; [exact Heq |]. split.
  - unfold addEditorMenuItems. by rewrite Heq.
  - unfold registerEditorCommands. by rewrite Heq.
Qed.

Lemma sublist_List_filter_mono {A} (f : A → bool) (l1 l2 : list A) :
  sublist l1 l2 → sublist (List.filter f l1) (List.filter f l2).
Proof.
  induction 1 as [|x l1 l2 _ IH|x l1 l2 _ IH]; cbn [List.filter].
  - constructor.
  - destruct (f x); [by constructor | done].
  - destruct (f x); [by constructor | done].
Qed.

(** X11: deleting a custom editor never adds to the enabled editors: the new
    list is the old one with at most one descriptor dropped, order kept; it
    is unchanged when the deleted editor was disabled. *)
Theorem deleteCustomEditor_enabled_sublist (index : nat) (s : PluginSettings) :
  sublist (getEnabledEditors (deleteCustomEditor index s)) (getEnabledEditors s) ∧
  (length (getEnabledEditors s) ≤
     S (length (getEnabledEditors (deleteCustomEditor index s))))%nat ∧
  (∀ c, customEditors s !! index = Some c → c_enabled c = false →
        getEnabledEditors (deleteCustomEditor index s) = getEnabledEditors s).
Proof.
  rewrite !getEnabledEditors_unfold. unfold listEnabledEditors_spec.
  unfold enabledCustoms, enabledBuiltIns, deleteCustomEditor.
  cbn [customEditors builtInEditors].
  change (builtInEnabled {| builtInEditors := builtInEditors s;
                            customEditors := delete index (customEditors s) |})
    with (builtInEnabled s).
  change (builtInGrouped {| builtInEditors := builtInEditors s;
                            customEditors := delete index (customEditors s) |})
    with (builtInGrouped s).
  split; [| split].
  - apply sublist_app; [done |].
    apply (fmap_sublist ofCustom), sublist_List_filter_mono, sublist_delete.
  - rewrite !length_app, !length_map.
    assert (length (List.filter c_enabled (customEditors s)) ≤
            S (length (List.filter c_enabled (delete index (customEditors s)))))%nat;
      [| lia].
    rewrite delete_take_drop.
    rewrite <- (take_drop index (customEditors s)) at 1.
    rewrite !List.filter_app, !length_app.
    destruct (customEditors s !! index) as [c|] eqn:Hc.
    + rewrite (drop_S _ _ _ Hc). cbn [List.filter].
      destruct (c_enabled c); cbn [length]; lia.
    + apply lookup_ge_None in Hc.
      rewrite !drop_ge by lia. cbn. lia.
  - intros c Hc Hdis. f_equal. f_equal.
    rewrite delete_take_drop.
    rewrite <- (take_drop index (customEditors s)) at 3.
    rewrite !List.filter_app. f_equal.
    rewrite (drop_S _ _ _ Hc). cbn [List.filter]. by rewrite Hdis.
Qed.

(** ** Command palette *)

Lemma foldl_snoc_map {A B} (f : A → B) (l : list A) (acc : list B) :
  foldl (λ acc x, (acc ++ [f x])%list) acc l = (acc ++ map f l)%list.
Proof.
  revert acc. induction l as [|x l IH]; intros acc; cbn [foldl map].
  - by rewrite app_nil_r.
  - by rewrite IH, <- app_assoc.
Qed.

Lemma registerEditorCommands_map s :
  registerEditorCommands s =
    map (λ e, mkCommand ("open-in-" +:+ id e) ("Open current file in " +:+ name e) e)
        (getEnabledEditors s).
Proof.
  unfold registerEditorCommands.
  apply (foldl_snoc_map
           (λ e, mkCommand ("open-in-" +:+ id e) ("Open current file in " +:+ name e) e)).
Qed.

Lemma NoDup_builtInIds : NoDup builtInIds.
Proof. apply (bool_decide_unpack (NoDup builtInIds)). vm_compute. exact I. Qed.

(** X12: one command is registered per enabled editor, in order, with id
    open-in-{editor id}. The command ids are pairwise distinct exactly when
    the ids of the enabled editors are, which is the case whenever the
    enabled custom editors have pairwise distinct ids that are not ids of
    built-in editors. *)
Theorem registerEditorCommands_ids (s : PluginSettings) :
  map cmd_editor (registerEditorCommands s) = getEnabledEditors s ∧
  map cmd_id (registerEditorCommands s) =
    map (λ e, "open-in-" +:+ id e) (getEnabledEditors s) ∧
  (NoDup (map cmd_id (registerEditorCommands s)) ↔
   NoDup (map id (getEnabledEditors s))) ∧
  (NoDup (map c_id (enabledCustoms s)) →
   (∀ c, c ∈ enabledCustoms s → c_id c ∉ builtInIds) →
   NoDup (map cmd_id (registerEditorCommands s))).
Proof.
  rewrite registerEditorCommands_map, !map_map. cbn [cmd_editor cmd_id].
  split; [by rewrite map_id |]. split; [done |].
  assert (NoDup (map (λ e, "open-in-" +:+ id e) (getEnabledEditors s)) ↔
          NoDup (map id (getEnabledEditors s))) as Hiff.
  { rewrite <- (map_map id (String.app "open-in-")).
    apply (NoDup_fmap (String.app "open-in-")). }
  split; [exact Hiff |].
  intros Hcustom Hfresh. apply Hiff.
  rewrite getEnabledEditors_unfold. unfold listEnabledEditors_spec.
  rewrite map_app, !map_map. cbn [id ofBuiltIn ofCustom].
  apply NoDup_app. split; [| split; [| exact Hcustom]].
  - refine (sublist_NoDup _ _ NoDup_builtInIds _).
    apply (fmap_sublist t_id), sublist_List_filter.
  - intros k Hk Hk'.
    apply list_elem_of_fmap in Hk' as (c & -> & Hc).
    apply (Hfresh c Hc).
    apply list_elem_of_fmap in Hk as (b & -> & Hb).
    apply list_elem_of_fmap. exists b. split; [done |].
    apply list_elem_of_In, filter_In in Hb as [Hb _]. by apply list_elem_of_In.
Qed.

Lemma registerEditorCommands_ids_witness :
  map cmd_id (registerEditorCommands sampleSettings) =
    ["open-in-vscode"; "open-in-zed"; "open-in-custom-1700000000000"] ∧
  NoDup (map cmd_id (registerEditorCommands sampleSettings)).
Proof.
  destruct (registerEditorCommands_ids sampleSettings) as (_ & Hids & _ & Hnodup).
  split; [rewrite Hids; vm_compute; reflexivity |].
  apply Hnodup.
  - apply (bool_decide_unpack (NoDup _)). vm_compute. exact I.
  - apply Forall_forall.
    apply (bool_decide_unpack
             (Forall (λ c, c_id c ∉ builtInIds) (enabledCustoms sampleSettings))).
    vm_compute. exact I.
Defined.

(** X13: a command's check callback reports availability by the presence of
    an active file and launches only when asked to run: without an active
    file it returns false and does nothing; when merely checking it returns
    true and does nothing; otherwise it returns true and opens the active
    file in the command's editor. *)
Theorem checkCallback_behaviour (host : Host) (editor : EditorConfig) (tr : list Event) :
  (∀ checking, checkCallback host editor None checking tr = (Returned false, tr)) ∧
  (∀ p, checkCallback host editor (Some p) true tr = (Returned true, tr)) ∧
  (∀ p, checkCallback host editor (Some p) false tr =
        (Returned true, (openInEditor host editor (Some (TFile p)) tr).2)).
Proof.
  split; [done |]. split; [done |].
  intros p. unfold checkCallback. cbn [negb].
  unfold mbind, M_bind. by rewrite openInEditor_run.
Qed.

(** ** Menu entries and enabled editors *)

Lemma partition_Permutation {A} (f : A → bool) (l : list A) :
  (List.filter (λ x, negb (f x)) l ++ List.filter f l)%list ≡ₚ l.
Proof.
  induction l as [|x l IH]; cbn [List.filter]; [done |].
  destruct (f x); cbn [negb app].
  - rewrite <- Permutation_middle. by constructor.
  - by constructor.
Qed.

(** X14: the clickable entries a contribution adds, top-level and submenu
    taken together, launch each enabled editor exactly once: first the
    ungrouped editors, then the grouped ones, each group in the order of the
    enabled list. *)
Theorem menu_entries_cover_enabled_editors
    (s : PluginSettings) (file : option TAbstractFile) :
  omap handlerEditor (allEntries (addEditorMenuItems s [] file)) =
    (List.filter (λ e, negb (grouped e)) (getEnabledEditors s)
     ++ List.filter grouped (getEnabledEditors s))%list ∧
  omap handlerEditor (allEntries (addEditorMenuItems s [] file)) ≡ₚ getEnabledEditors s.
Proof.
  match goal with |- ?P ∧ _ => assert P as Heq end.
  { rewrite addEditorMenuItems_shape. cbn [app]. unfold allEntries.
    set (eds := getEnabledEditors s).
    assert (∀ l : list EditorConfig,
      flat_map (λ item, default [] (submenu item)) (map (topEntry file) l) = []) as Hflat.
    { induction l as [|x l IH]; [done |]. cbn. exact IH. }
    assert (∀ l : list EditorConfig, omap handlerEditor (map (topEntry file) l) = l)
      as Htop.
    { induction l as [|x l IH]; [done |]. cbn. by rewrite IH. }
    assert (∀ l : list EditorConfig, omap handlerEditor (map (subEntry file) l) = l)
      as Hsub.
    { induction l as [|x l IH]; [done |]. cbn. by rewrite IH. }
    rewrite flat_map_app, Hflat, !omap_app, Htop. cbn [app].
    destruct (existsb grouped eds) eqn:Hex.
    - cbn. by rewrite !app_nil_r, Hsub.
    - rewrite (filter_existsb_false grouped eds Hex). cbn.
      by rewrite !app_nil_r. }
  split; [exact Heq |]. rewrite Heq. apply partition_Permutation.
Qed.

(** ** Settings handlers: failure, invariants, persistence *)

(** The assignment of a handler throws exactly when what it addresses is
    not there: a built-in toggle whose id has no settings entry, or an edit
    of a custom editor at an index past the end. *)
Lemma applyAction_valid (s : PluginSettings) (a : SettingsAction) :
  (applyAction s a = None ↔ ¬ validAction s a) ∧
  (is_Some (applyAction s a) ↔ validAction s a).
Proof.
  assert (is_Some (applyAction s a) ↔ validAction s a) as Hsome.
  { destruct a as [k v | k v | now | index f | index]; cbn.
    - unfold setBuiltInEnabled. destruct (builtInEditors s !! k); split;
        intros [x Hx]; simplify_eq; by eexists.
    - unfold setBuiltInGrouped. destruct (builtInEditors s !! k); split;
        intros [x Hx]; simplify_eq; by eexists.
    - split; [done | by eexists].
    - unfold setCustomField. rewrite <- lookup_lt_is_Some.
      destruct (customEditors s !! index); split;
        intros [x Hx]; simplify_eq; by eexists.
    - split; [done | by eexists]. }
  split; [| exact Hsome].
  rewrite <- Hsome, eq_None_not_Some. done.
Qed.

Lemma applyAction_entries s a s' k :
  applyAction s a = Some s' →
  is_Some (builtInEditors s' !! k) ↔ is_Some (builtInEditors s !! k).
Proof.
  intros Ha. destruct a as [k' v | k' v | now | index f | index]; cbn in Ha.
  - unfold setBuiltInEnabled in Ha.
    destruct (builtInEditors s !! k') eqn:Hk'; [| done]. injection Ha as <-.
    cbn [builtInEditors]. rewrite lookup_insert_is_Some'.
    split; [intros [<- | ?]; [by eexists | done] | by right].
  - unfold setBuiltInGrouped in Ha.
    destruct (builtInEditors s !! k') eqn:Hk'; [| done]. injection Ha as <-.
    cbn [builtInEditors]. rewrite lookup_insert_is_Some'.
    split; [intros [<- | ?]; [by eexists | done] | by right].
  - by injection Ha as <-.
  - unfold setCustomField in Ha.
    destruct (customEditors s !! index); [| done]. by injection Ha as <-.
  - by injection Ha as <-.
Qed.

Lemma applyAction_complete s a s' :
  applyAction s a = Some s' → complete s' ↔ complete s.
Proof.
  intros Ha. unfold complete. rewrite !Forall_forall.
  split; intros H e He; apply (applyAction_entries s a s' (t_id e) Ha); by apply H.
Qed.

Lemma display_Some_complete s v : display s = Some v → complete s.
Proof.
  intros Hv. unfold display in Hv.
  destruct (mapM (createBuiltInEditorSetting s) BUILT_IN_EDITORS) as [bs|] eqn:Hbs;
    [| done].
  apply mapM_Some_1 in Hbs. unfold complete. apply Forall_forall. intros e He.
  apply list_elem_of_lookup in He as [i Hi].
  destruct (Forall2_lookup_l _ _ _ _ _ Hbs Hi) as (r & _ & Hr).
  unfold createBuiltInEditorSetting in Hr.
  destruct (builtInEditors s !! t_id e); [by eexists | done].
Qed.

(** What a handler leaves behind and how it ends, from its assignment. *)
Lemma runHandler_unfold st a :
  runHandler st a =
    match applyAction (st_settings st) a with
    | None => (st, TypeError)
    | Some s' =>
        ({| st_settings := s'; st_disk := Some (saveData s') |},
         if rerenders a && negb (bool_decide (complete (st_settings st)))
         then TypeError else Done)
    end.
Proof.
  unfold runHandler.
  destruct (applyAction (st_settings st) a) as [s'|] eqn:Ha; [| done].
  destruct (rerenders a); [| done]. cbn [andb].
  case_bool_decide as Hc; cbn [negb].
  - apply (applyAction_complete _ _ _ Ha) in Hc. by rewrite (display_complete _ Hc).
  - destruct (display s') as [v|] eqn:Hv; [| done].
    apply display_Some_complete, (applyAction_complete _ _ _ Ha) in Hv. done.
Qed.

Lemma handle_invariant st a st' :
  complete (st_settings st) →
  handle st a = Some st' →
  complete (st_settings st') ∧ loadSettings (st_disk st') = st_settings st'.
Proof.
  intros Hs Hh. unfold handle in Hh. rewrite runHandler_unfold in Hh.
  destruct (applyAction (st_settings st) a) as [s'|] eqn:Ha; [| done].
  destruct (rerenders a && negb (bool_decide (complete (st_settings st)))); [done |].
  injection Hh as <-. cbn [st_settings st_disk].
  assert (complete s') as Hs' by (by apply (applyAction_complete _ _ _ Ha)).
  split; [done |]. destruct s' as [bs cs]. by apply loadSettings_stored_complete.
Qed.

(** X16: after activation, whatever sequence of settings changes goes
    through, every built-in editor keeps a settings entry, the settings tab
    renders, and what is on disk loads back to exactly the settings in
    memory. *)
Theorem handleAll_keeps_settings_loadable
    (disk : option PersistedData) (actions : list SettingsAction) (st' : TabState) :
  handleAll (activate_plugin disk) actions = Some st' →
  complete (st_settings st') ∧
  is_Some (display (st_settings st')) ∧
  loadSettings (st_disk st') = st_settings st'.
Proof.
  assert (∀ st, complete (st_settings st) →
                loadSettings (st_disk st) = st_settings st →
                handleAll st actions = Some st' →
                complete (st_settings st') ∧
                loadSettings (st_disk st') = st_settings st') as Hgen.
  { induction actions as [|a actions IH]; intros st Hc Hl Hrun; cbn in Hrun.
    - by injection Hrun as <-.
    - destruct (handle st a) as [st1|] eqn:Hh; [| done]. cbn in Hrun.
      destruct (handle_invariant st a st1 Hc Hh) as [Hc1 Hl1].
      by apply (IH st1). }
  intros Hrun.
  destruct (Hgen (activate_plugin disk)) as [Hc Hl];
    [apply loadSettings_complete | done | done |].
  split; [done |]. split; [| done].
  rewrite (display_complete _ Hc). by eexists.
Qed.

Lemma handleAll_keeps_settings_loadable_witness :
  ∃ st',
    handleAll (activate_plugin None) sampleActions = Some st' ∧
    map name (getEnabledEditors (st_settings st')) = ["Zed"; "Vim"] ∧
    loadSettings (st_disk st') = st_settings st'.
Proof.
  assert (∃ st', handleAll (activate_plugin None) sampleActions = Some st' ∧
                 map name (getEnabledEditors (st_settings st')) = ["Zed"; "Vim"])
    as (st' & Hrun & Hnames).
  { eexists. split; vm_compute; reflexivity. }
  exists st'. split; [exact Hrun |]. split; [exact Hnames |].
  exact (proj2 (proj2 (handleAll_keeps_settings_loadable None sampleActions st' Hrun))).
Defined.

(** ** Launch targets *)

(** X17: a folder is opened exactly like a file with the same vault path;
    with no target the vault's base path is opened without consulting the
    adapter's path resolution; and when the adapter cannot resolve the path
    nothing is executed and the failure notice is shown. *)
Theorem openInEditor_targets
    (host : Host) (editor : EditorConfig) (p : string) (tr : list Event) :
  openInEditor host editor (Some (TFolder p)) tr =
    openInEditor host editor (Some (TFile p)) tr ∧
  execs (openInEditor host editor None tr).2 =
    (execs tr ++ [buildCommand host editor (basePath host)])%list ∧
  (getFullPath host p = None →
   execs (openInEditor host editor (Some (TFile p)) tr).2 = execs tr ∧
   notices (openInEditor host editor (Some (TFile p)) tr).2 =
     (notices tr ++ ["Failed to open in " +:+ name editor +:+ ". Make sure "
                     +:+ name editor +:+ " is installed."])%list).
Proof.
  rewrite !openInEditor_run. cbn [snd].
  split; [done |]. split.
  - by rewrite execs_app, (execs_launchEvents host editor None (basePath host)).
  - intros Hp. unfold launchEvents, fullPathOf. cbn [path]. rewrite Hp.
    unfold execs, notices. rewrite !omap_app. cbn. by rewrite app_nil_r.
Qed.

(** ** Change handlers in full *)

(** X7: the enable toggle of a built-in editor that has a settings entry
    stores the new value and saves it: the state it leaves holds the value
    with the old grouped flag, the same custom editors and a disk copy of
    exactly these settings; the editor is enabled exactly when the value is
    true and no other descriptor enters or leaves the enabled list. The
    handler runs to its end exactly when every built-in editor has an entry;
    otherwise its re-render throws, after the change was stored and saved. *)
Theorem enableToggle_handler
    (st : TabState) (b : EditorTemplate) (entry : BuiltInSetting) (value : bool) :
  b ∈ BUILT_IN_EDITORS →
  builtInEditors (st_settings st) !! t_id b = Some entry →
  ∃ s',
    (runHandler st (BuiltInEnable (t_id b) value)).1 =
      {| st_settings := s'; st_disk := Some (saveData s') |} ∧
    builtInEditors s' !! t_id b = Some (mkBuiltInSetting value (s_grouped entry)) ∧
    customEditors s' = customEditors (st_settings st) ∧
    (ofBuiltIn b (s_grouped entry) ∈ getEnabledEditors s' ↔ value = true) ∧
    (∀ e, isBuiltIn e = false ∨ id e ≠ t_id b →
          (e ∈ getEnabledEditors s' ↔ e ∈ getEnabledEditors (st_settings st))) ∧
    ((runHandler st (BuiltInEnable (t_id b) value)).2 = Done ↔
     complete (st_settings st)).
Proof.
  intros Hb Hentry.
  destruct (setBuiltInEnabled_assignment (st_settings st) b entry value Hb Hentry)
    as (s' & Hs' & Hlk & Hcs & Hin & Hothers).
  exists s'. rewrite runHandler_unfold. cbn [applyAction rerenders andb].
  rewrite Hs'. cbn [fst snd].
  split; [done |]. split; [done |]. split; [done |]. split; [done |].
  split; [done |].
  case_bool_decide; cbn [negb]; split; done.
Qed.

Lemma enableToggle_handler_witness :
  let b := mkEditorTemplate "cursor" "Cursor" "Cursor" "cursor" true in
  let st := {| st_settings := sampleSettings; st_disk := None |} in
  ∃ s',
    (runHandler st (BuiltInEnable "cursor" true)).1 =
      {| st_settings := s'; st_disk := Some (saveData s') |} ∧
    ofBuiltIn b true ∈ getEnabledEditors s' ∧
    (runHandler st (BuiltInEnable "cursor" true)).2 = TypeError.
Proof.
  intros b st.
  destruct (enableToggle_handler st b (mkBuiltInSetting false true) true)
    as (s' & Hst' & _ & _ & Hin & _ & Hout).
  - apply (bool_decide_unpack (b ∈ BUILT_IN_EDITORS)). vm_compute. exact I.
  - vm_compute. reflexivity.
  - exists s'. split; [exact Hst' |]. split; [by apply Hin |].
    destruct ((runHandler st (BuiltInEnable "cursor" true)).2) eqn:Hres; [| done].
    exfalso. assert (complete (st_settings st)) as Hc by (apply Hout; exact Hres).
    apply (bool_decide_pack (complete sampleSettings)) in Hc.
    vm_compute in Hc. exact Hc.
Defined.



(** X15: how a change handler ends. It runs to its end exactly when what it
    addresses is there (the built-in entry of a toggle, the index of an
    edit) and, for the handlers that re-render, every built-in editor has an
    entry. When what it addresses is missing the assignment throws and
    memory and disk are as before; otherwise the change is in memory and on
    disk, also when the re-render throws afterwards. On settings with an
    entry for every built-in editor a handler throws exactly when what it
    addresses is missing, and adding and deleting never throw. *)
Theorem runHandler_outcome (st : TabState) (a : SettingsAction) :
  ((runHandler st a).2 = Done ↔
   validAction (st_settings st) a ∧
   (rerenders a = true → complete (st_settings st))) ∧
  (¬ validAction (st_settings st) a → runHandler st a = (st, TypeError)) ∧
  (validAction (st_settings st) a →
   ∃ s', applyAction (st_settings st) a = Some s' ∧
         (runHandler st a).1 = {| st_settings := s'; st_disk := Some (saveData s') |}) ∧
  (complete (st_settings st) →
   ((runHandler st a).2 = TypeError ↔ ¬ validAction (st_settings st) a) ∧
   (∀ now, (runHandler st (CustomAdd now)).2 = Done) ∧
   (∀ index, (runHandler st (CustomDelete index)).2 = Done)).
Proof.
  destruct (applyAction_valid (st_settings st) a) as [Hnone Hsome].
  assert ((runHandler st a).2 = Done ↔
          validAction (st_settings st) a ∧
          (rerenders a = true → complete (st_settings st))) as Hdone.
  { rewrite runHandler_unfold.
    destruct (applyAction (st_settings st) a) as [s'|] eqn:Ha; cbn [snd].
    - assert (validAction (st_settings st) a) as Hv by (apply Hsome; by eexists).
      destruct (rerenders a); cbn [andb].
      + case_bool_decide; cbn [negb]; split; try done.
        * intros [_ Hc]. by specialize (Hc eq_refl).
      + split; [by split | done].
    - split; [done |]. intros [Hv _]. by apply Hnone in Hv. }
  split; [exact Hdone |]. split; [| split].
  - intros Hinv. rewrite runHandler_unfold.
    by rewrite (proj2 Hnone Hinv).
  - intros Hv. apply Hsome in Hv as [s' Hs']. exists s'. split; [done |].
    rewrite runHandler_unfold. by rewrite Hs'.
  - intros Hc. split; [| split].
    + split.
      * intros Hthrow Hv.
        assert ((runHandler st a).2 = Done) as Hd by (apply Hdone; by split).
        congruence.
      * intros Hinv. destruct (decide ((runHandler st a).2 = Done)) as [Hout | Hout].
        -- apply Hdone in Hout as [Hv _]. done.
        -- by destruct ((runHandler st a).2).
    + intros now. rewrite runHandler_unfold. cbn [applyAction rerenders andb snd].
      by rewrite bool_decide_eq_true_2.
    + intros index. rewrite runHandler_unfold. cbn [applyAction rerenders andb snd].
      by rewrite bool_decide_eq_true_2.
Qed.

Lemma runHandler_outcome_witness :
  let st := {| st_settings := sampleSettings; st_disk := None |} in
  let st' := activate_plugin (Some (saveData sampleSettings)) in
  (runHandler st (CustomAdd 1700000000002)).2 = TypeError ∧
  customIds (st_settings (runHandler st (CustomAdd 1700000000002)).1) =
    ["custom-1700000000000"; "custom-1700000000001"; "custom-1700000000002"] ∧
  (runHandler st (BuiltInGroup "zed" false)).2 = Done ∧
  runHandler st (BuiltInEnable "windsurf" true) = (st, TypeError) ∧
  (runHandler st' (CustomAdd 1700000000002)).2 = Done ∧
  (runHandler st' (BuiltInEnable "windsurf" true)).2 = Done.
Proof.
  intros st st'.
  destruct (runHandler_outcome st (BuiltInEnable "windsurf" true)) as (_ & Hinv & _).
  destruct (runHandler_outcome st' (CustomAdd 1700000000002)) as (_ & _ & _ & Hc).
  destruct Hc as (_ & Hadd & _); [apply loadSettings_complete |].
  split; [vm_compute; reflexivity |]. split; [vm_compute; reflexivity |].
  split; [vm_compute; reflexivity |]. split.
  - apply Hinv. cbn. intros [x Hx]. vm_compute in Hx. discriminate.
  - split; [apply Hadd | vm_compute; reflexivity].
Defined.
